(** * crypto-volatility: the volatility and DVOL calculators

    A shallow embedding of [src/calculators/volatility.ts] and
    [src/calculators/dvol.ts], with the properties of the computational
    core stated and proved against it.

    JavaScript numbers are modelled by [num]: the real numbers extended
    with [NaN], [+Infinity] and [-Infinity].  The arithmetic follows
    IEEE 754 on the special values (so [0/0] is [NaN], [x/0] is an
    infinity, every comparison with [NaN] is false, [Math.max] and
    [Math.min] return [NaN] when given one); on finite values it is exact
    real arithmetic: rounding, overflow and the sign of zero are
    abstracted away. *)

From Stdlib Require Import String Reals Lra Lia ZArith Bool List.
Import ListNotations.

Set Implicit Arguments.

(** ** Numbers *)

Inductive num : Type :=
| NaN
| PInf
| NInf
| Fin (x : R).

Declare Scope num_scope.
Delimit Scope num_scope with num.
Bind Scope num_scope with num.

Module Num.

Local Open Scope R_scope.

Definition Rleb (x y : R) : bool := if Rle_dec x y then true else false.
Definition Rltb (x y : R) : bool := if Rlt_dec x y then true else false.
Definition Reqb (x y : R) : bool := if Req_dec_T x y then true else false.

(** An array length, or any other integer, as a number. *)
Definition of_Z (z : Z) : num := Fin (IZR z).

Definition one : num := Fin 1.

Definition inf_of_sign (positive : bool) : num :=
  if positive then PInf else NInf.

(** An infinity of the given sign times (or a nonzero numerator's sign
    over zero) a finite [x]: [NaN] when [x] is zero. *)
Definition scale_inf (positive : bool) (x : R) : num :=
  if Reqb x 0 then NaN
  else if Rltb 0 x then inf_of_sign positive
  else inf_of_sign (negb positive).

Definition neg (a : num) : num :=
  match a with
  | NaN => NaN
  | PInf => NInf
  | NInf => PInf
  | Fin x => Fin (- x)
  end.

Definition add (a b : num) : num :=
  match a, b with
  | NaN, _ | _, NaN => NaN
  | PInf, NInf | NInf, PInf => NaN
  | PInf, _ | _, PInf => PInf
  | NInf, _ | _, NInf => NInf
  | Fin x, Fin y => Fin (x + y)
  end.

Definition sub (a b : num) : num := add a (neg b).

Definition mul (a b : num) : num :=
  match a, b with
  | NaN, _ | _, NaN => NaN
  | PInf, PInf | NInf, NInf => PInf
  | PInf, NInf | NInf, PInf => NInf
  | PInf, Fin x | Fin x, PInf => scale_inf true x
  | NInf, Fin x | Fin x, NInf => scale_inf false x
  | Fin x, Fin y => Fin (x * y)
  end.

Definition div (a b : num) : num :=
  match a, b with
  | NaN, _ | _, NaN => NaN
  | PInf, PInf | PInf, NInf | NInf, PInf | NInf, NInf => NaN
  | Fin _, PInf | Fin _, NInf => Fin 0
  | PInf, Fin y => if Rltb y 0 then NInf else PInf
  | NInf, Fin y => if Rltb y 0 then PInf else NInf
  | Fin x, Fin y => if Reqb y 0 then scale_inf true x else Fin (x / y)
  end.

(** [a <= b], [a < b] and [a === b] of JavaScript. *)
Definition le (a b : num) : bool :=
  match a, b with
  | NaN, _ | _, NaN => false
  | NInf, _ | _, PInf => true
  | PInf, _ | _, NInf => false
  | Fin x, Fin y => Rleb x y
  end.

Definition lt (a b : num) : bool :=
  match a, b with
  | NaN, _ | _, NaN => false
  | _, _ => negb (le b a)
  end.

Definition ge (a b : num) : bool := le b a.

Definition eqb (a b : num) : bool :=
  match a, b with
  | PInf, PInf | NInf, NInf => true
  | Fin x, Fin y => Reqb x y
  | _, _ => false
  end.

Definition Number_isFinite (a : num) : bool :=
  match a with Fin _ => true | _ => false end.

Definition Math_sqrt (a : num) : num :=
  match a with
  | NaN | NInf => NaN
  | PInf => PInf
  | Fin x => if Rltb x 0 then NaN else Fin (sqrt x)
  end.

Definition Math_log (a : num) : num :=
  match a with
  | NaN | NInf => NaN
  | PInf => PInf
  | Fin x => if Rltb x 0 then NaN else if Reqb x 0 then NInf else Fin (ln x)
  end.

Definition Math_abs (a : num) : num :=
  match a with
  | NaN => NaN
  | PInf | NInf => PInf
  | Fin x => Fin (Rabs x)
  end.

Definition Math_max (a b : num) : num :=
  match a, b with
  | NaN, _ | _, NaN => NaN
  | _, _ => if le a b then b else a
  end.

Definition Math_min (a b : num) : num :=
  match a, b with
  | NaN, _ | _, NaN => NaN
  | _, _ => if le a b then a else b
  end.

(** [Math.pow(a, k)] for the literal exponents [2], [3], [4] of the
    sources. *)
Fixpoint Math_pow (a : num) (k : nat) : num :=
  match k with
  | O => one
  | S k' => mul a (Math_pow a k')
  end.

End Num.

Export Num.

Infix "+" := add : num_scope.
Infix "-" := sub : num_scope.
Infix "*" := mul : num_scope.
Infix "/" := div : num_scope.
Infix "<=?" := le : num_scope.
Infix "<?" := lt : num_scope.
Infix ">=?" := ge : num_scope.
Infix "=?" := eqb : num_scope.
Notation "- x" := (neg x) : num_scope.

(** ** Errors and fallible computations

    Every [throw new Error(...)] of the two calculators is one constructor,
    named after its message. *)

Inductive DVOLMethod : Type := simple | ewma | garch.

Inductive error : Type :=
| NeedTwoPricePointsForReturns   (* volatility.ts, calculateLogReturns *)
| PricesMustBePositive           (* volatility.ts, calculateLogReturns *)
| MeanOfEmptyArray               (* volatility.ts, calculateMean *)
| NeedTwoValuesForVariance       (* volatility.ts, calculateVariance *)
| PeriodsPerYearMustBePositive   (* volatility.ts, annualizeVolatility *)
| NeedTwoPricePoints             (* volatility.ts, calculateMetrics *)
| InsufficientDataForWindow (windowSize : Z)  (* dvol.ts, calculateSimpleDVOL *)
| EwmaLambdaOutOfRange           (* dvol.ts, calculateEWMADVOL *)
| NeedTwoReturnsForEwma          (* dvol.ts, calculateEWMADVOL *)
| InvalidGarchParameters         (* dvol.ts, calculateGARCHDVOL *)
| NeedTenReturnsForGarch         (* dvol.ts, calculateGARCHDVOL *)
| PriceDataEmpty                 (* dvol.ts, validateInput *)
| NeedTwoPricePointsForDvol      (* dvol.ts, validateInput *)
| MethodRequiresAtLeast (m : DVOLMethod) (minDataPoints : Z)  (* dvol.ts, validateInput *)
| PricesNotPositiveFinite.       (* dvol.ts, validateInput *)

Inductive result (A : Type) : Type :=
| Ok (a : A)
| Throw (e : error).

Arguments Ok {A} a.
Arguments Throw {A} e.

Definition bind {A B : Type} (c : result A) (k : A -> result B) : result B :=
  match c with
  | Ok a => k a
  | Throw e => Throw e
  end.

Notation "x <- c ;; k" := (bind c (fun x => k))
  (at level 61, c at next level, right associativity).
Notation "' pat <- c ;; k" := (bind c (fun x => match x with pat => k end))
  (at level 61, pat pattern, c at next level, right associativity).

(** The error taxonomy of the specification, and the class of each
    thrown error. *)
Inductive errorKind : Type := InsufficientData | InvalidPrice | InvalidParameter.

Definition kind_of (e : error) : errorKind :=
  match e with
  | NeedTwoPricePointsForReturns | MeanOfEmptyArray | NeedTwoValuesForVariance
  | NeedTwoPricePoints | InsufficientDataForWindow _ | NeedTwoReturnsForEwma
  | NeedTenReturnsForGarch | PriceDataEmpty | NeedTwoPricePointsForDvol
  | MethodRequiresAtLeast _ _ => InsufficientData
  | PricesMustBePositive | PricesNotPositiveFinite => InvalidPrice
  | PeriodsPerYearMustBePositive | EwmaLambdaOutOfRange
  | InvalidGarchParameters => InvalidParameter
  end.

(** ** Arrays and loops *)

Local Open Scope Z_scope.

Definition len {A : Type} (l : list A) : Z := Z.of_nat (length l).

(** [a[i]] on an array of numbers; an index out of range reads
    [undefined], which arithmetic turns into [NaN]. *)
Definition get (l : list num) (i : Z) : num :=
  if i <? 0 then NaN else nth (Z.to_nat i) l NaN.

(** [Array.prototype.slice(start, end)], negative indices counting from
    the end. *)
Definition relative_index (n i : Z) : Z :=
  if i <? 0 then Z.max (n + i) 0 else Z.min i n.

Definition slice {A : Type} (l : list A) (start stop : Z) : list A :=
  let k := relative_index (len l) start in
  let final := relative_index (len l) stop in
  firstn (Z.to_nat (final - k)) (skipn (Z.to_nat k) l).

(** [for (let i = lo; i < hi; i++) body], the loop state threaded through
    the body, which may throw. *)
Fixpoint for_loop_from {St : Type} (fuel : nat) (i : Z)
    (body : Z -> St -> result St) (s : St) : result St :=
  match fuel with
  | O => Ok s
  | S fuel' =>
      match body i s with
      | Ok s' => for_loop_from fuel' (i + 1) body s'
      | Throw e => Throw e
      end
  end.

Definition for_loop {St : Type} (lo hi : Z) (body : Z -> St -> result St) (s : St)
    : result St :=
  for_loop_from (Z.to_nat (hi - lo)) lo body s.

(** ** Data model ([src/types.ts], [src/calculators/dvol.ts]) *)

Record PriceData : Type := { timestamp : Z; price : num }.

Record VolatilityMetrics : Type :=
  { volatility : num; variance : num; annualizedVolatility : num }.

Record GARCHParams : Type := { omega : num; alpha : num; beta : num }.

(** The optional properties of [DVOLOptions]; [None] is a property left
    undefined.  A window size is a whole number. *)
Record DVOLOptions : Type :=
  { windowSize : option Z;
    ewmaLambda : option num;
    garchParams : option GARCHParams;
    annualizationFactor : option num }.

Record DVOLResult : Type :=
  { dvol : num;
    dvolIndex : num;
    confidence : num;
    method : DVOLMethod;
    dataPoints : Z;
    calculatedAt : Z }.

Record Diagnostics : Type :=
  { autocorrelation : num;
    heteroskedasticity : num;
    skewness : num;
    kurtosis : num }.

(** ** [VolatilityCalculator] ([src/calculators/volatility.ts]) *)

Module VolatilityCalculator.

Definition calculateLogReturns (prices : list num) : result (list num) :=
  if len prices <? 2 then Throw NeedTwoPricePointsForReturns
  else
    for_loop 1 (len prices)
      (fun i returns =>
         if (get prices (i - 1) <=? Fin 0)%num || (get prices i <=? Fin 0)%num
         then Throw PricesMustBePositive
         else
           let logReturn := Math_log (get prices i / get prices (i - 1)) in
           Ok (returns ++ [logReturn]))
      [].

Definition calculateMean (values : list num) : result num :=
  if len values =? 0 then Throw MeanOfEmptyArray
  else Ok (fold_left (fun sum value => sum + value)%num values (Fin 0)
           / of_Z (len values))%num.

Definition calculateVariance (values : list num) : result num :=
  if len values <? 2 then Throw NeedTwoValuesForVariance
  else
    mean <- calculateMean values ;;
    let squaredDifferences := map (fun value => Math_pow (value - mean) 2) values in
    Ok (fold_left (fun sum diff => sum + diff)%num squaredDifferences (Fin 0)
        / of_Z (len values - 1))%num.

Definition calculateStandardDeviation (values : list num) : result num :=
  v <- calculateVariance values ;;
  Ok (Math_sqrt v).

Definition annualizeVolatility (volatility periodsPerYear : num) : result num :=
  if (periodsPerYear <=? Fin 0)%num then Throw PeriodsPerYearMustBePositive
  else Ok (volatility * Math_sqrt periodsPerYear)%num.

Definition getPeriodsPerYear (period : string) (dataPoints : Z) : num :=
  if String.eqb period "1d"%string then (Fin 365 * Fin 24)%num
  else if String.eqb period "30d"%string then Fin 365
  else if String.eqb period "365d"%string then Fin 365
  else Math_min (Fin 365) (of_Z dataPoints * Fin 12).

Definition calculateMetrics (priceData : list PriceData) (period : string)
    : result VolatilityMetrics :=
  if len priceData <? 2 then Throw NeedTwoPricePoints
  else
    let prices := map price priceData in
    logReturns <- calculateLogReturns prices ;;
    variance <- calculateVariance logReturns ;;
    let volatility := Math_sqrt variance in
    let periodsPerYear := getPeriodsPerYear period (len logReturns) in
    annualizedVolatility <- annualizeVolatility volatility periodsPerYear ;;
    Ok {| volatility := (volatility * Fin 100)%num;
          variance := (variance * Fin 10000)%num;
          annualizedVolatility := (annualizedVolatility * Fin 100)%num |}.

End VolatilityCalculator.

(** ** [DVOLCalculator] ([src/calculators/dvol.ts]) *)

Module DVOLCalculator.

Import VolatilityCalculator.

Definition DEFAULT_WINDOW_SIZE : Z := 30.
Definition DEFAULT_EWMA_LAMBDA : num := Fin (94 / 100).
Definition DEFAULT_GARCH_PARAMS : GARCHParams :=
  {| omega := Fin (1 / 1000000); alpha := Fin (1 / 10); beta := Fin (85 / 100) |}.
Definition ANNUALIZATION_FACTOR : num := Fin 365.

(** The options object with every property left undefined. *)
Definition no_options : DVOLOptions :=
  {| windowSize := None; ewmaLambda := None; garchParams := None;
     annualizationFactor := None |}.

(** [priceData] is an array by its type, so [!Array.isArray(priceData)]
    is false. *)
Definition validateInput (priceData : list PriceData) (method : DVOLMethod)
    : result unit :=
  if len priceData =? 0 then Throw PriceDataEmpty
  else if len priceData <? 2 then Throw NeedTwoPricePointsForDvol
  else
    let minDataPoints :=
      match method with garch => 10 | ewma => 5 | simple => 2 end in
    if len priceData <? minDataPoints
    then Throw (MethodRequiresAtLeast method minDataPoints)
    else
      let invalidPrices :=
        filter (fun data => negb (Number_isFinite (price data))
                            || (price data <=? Fin 0)%num) priceData in
      if len invalidPrices >? 0 then Throw PricesNotPositiveFinite
      else Ok tt.

Definition calculateDVOLIndex (dvol : num) : num :=
  let minDVOL := Fin 10 in
  let maxDVOL := Fin 200 in
  let normalizedIndex := ((dvol - minDVOL) / (maxDVOL - minDVOL) * Fin 100)%num in
  Math_max (Fin 0) (Math_min (Fin 100) normalizedIndex).

Definition calculateStability (variances : list num) : result num :=
  if len variances <? 2 then Ok (Fin 50)
  else
    mean <- calculateMean variances ;;
    std <- calculateStandardDeviation variances ;;
    let coefficientOfVariation := (std / mean)%num in
    Ok (Math_max (Fin 0)
          (Math_min (Fin 100) (Fin 100 - coefficientOfVariation * Fin 100))).

Definition calculateGARCHConfidence (standardizedResiduals variances : list num)
    : result num :=
  if len standardizedResiduals =? 0 then Ok (Fin 50)
  else
    residualMean <- calculateMean standardizedResiduals ;;
    residualStd <- calculateStandardDeviation standardizedResiduals ;;
    let meanDeviation := Math_abs residualMean in
    let stdDeviation := Math_abs (residualStd - Fin 1) in
    let qualityScore :=
      Math_max (Fin 0) (Fin 100 - (meanDeviation + stdDeviation) * Fin 50) in
    varianceStability <- calculateStability variances ;;
    Ok ((qualityScore + varianceStability) / Fin 2)%num.

(** The rolling-window loop of [calculateSimpleDVOL]; the state is
    [volatilities]. *)
Definition rollingVolatilities (logReturns : list num) (windowSize : Z)
    : result (list num) :=
  for_loop (windowSize - 1) (len logReturns)
    (fun i volatilities =>
       let window := slice logReturns (i - windowSize + 1) (i + 1) in
       variance <- calculateVariance window ;;
       let volatility := Math_sqrt variance in
       Ok (volatilities ++ [volatility]))
    [].

Definition calculateSimpleDVOL (priceData : list PriceData) (windowSize : Z)
    (annualizationFactor : num) : result (num * num) :=
  let prices := map price priceData in
  logReturns <- calculateLogReturns prices ;;
  if len logReturns <? windowSize
  then Throw (InsufficientDataForWindow windowSize)
  else
    volatilities <- rollingVolatilities logReturns windowSize ;;
    meanVolatility <- calculateMean volatilities ;;
    let dvol := (meanVolatility * Math_sqrt annualizationFactor * Fin 100)%num in
    volatilityStd <- calculateStandardDeviation volatilities ;;
    meanVolatility' <- calculateMean volatilities ;;
    let confidence :=
      Math_max (Fin 0)
        (Math_min (Fin 100)
           (Fin 100 - (volatilityStd / meanVolatility') * Fin 100)) in
    Ok (dvol, confidence).

(** The recursive loop of [calculateEWMADVOL]; the state is
    [(ewmaVariance, variances)]. *)
Definition ewmaVariances (logReturns : list num) (lambda : num)
    : result (num * list num) :=
  let ewmaVariance := Math_pow (get logReturns 0) 2 in
  for_loop 1 (len logReturns)
    (fun i '(ewmaVariance, variances) =>
       let ewmaVariance :=
         (lambda * ewmaVariance
          + (Fin 1 - lambda) * Math_pow (get logReturns i) 2)%num in
       Ok (ewmaVariance, variances ++ [ewmaVariance]))
    (ewmaVariance, [ewmaVariance]).

Definition calculateEWMADVOL (priceData : list PriceData) (lambda : num)
    (annualizationFactor : num) : result (num * num) :=
  if (lambda <=? Fin 0)%num || (lambda >=? Fin 1)%num
  then Throw EwmaLambdaOutOfRange
  else
    let prices := map price priceData in
    logReturns <- calculateLogReturns prices ;;
    if len logReturns <? 2 then Throw NeedTwoReturnsForEwma
    else
      '(ewmaVariance, variances) <- ewmaVariances logReturns lambda ;;
      let dvol := (Math_sqrt (ewmaVariance * annualizationFactor) * Fin 100)%num in
      let recentVariances :=
        slice variances (- Z.min 10 (len variances)) (len variances) in
      varianceStability <- calculateStability recentVariances ;;
      let confidence := Math_max (Fin 0) (Math_min (Fin 100) varianceStability) in
      Ok (dvol, confidence).

(** The loop of [calculateGARCHDVOL]; the state is
    [(variance, variances, standardizedResiduals)]. *)
Definition garchVariances (logReturns : list num) (params : GARCHParams)
    (unconditionalVariance : num) : result (num * list num * list num) :=
  for_loop 1 (len logReturns)
    (fun i '(variance, variances, standardizedResiduals) =>
       let previousReturn := get logReturns (i - 1) in
       let previousVariance := variance in
       let variance :=
         (omega params + alpha params * Math_pow previousReturn 2
          + beta params * previousVariance)%num in
       let standardizedResidual := (get logReturns i / Math_sqrt variance)%num in
       Ok (variance, variances ++ [variance],
           standardizedResiduals ++ [standardizedResidual]))
    (unconditionalVariance, [unconditionalVariance], []).

Definition calculateGARCHDVOL (priceData : list PriceData) (params : GARCHParams)
    (annualizationFactor : num) : result (num * num) :=
  if (omega params <=? Fin 0)%num || (alpha params <? Fin 0)%num
     || (beta params <? Fin 0)%num
     || (alpha params + beta params >=? Fin 1)%num
  then Throw InvalidGarchParameters
  else
    let prices := map price priceData in
    logReturns <- calculateLogReturns prices ;;
    if len logReturns <? 10 then Throw NeedTenReturnsForGarch
    else
      unconditionalVariance <- calculateVariance logReturns ;;
      '(variance, variances, standardizedResiduals) <-
        garchVariances logReturns params unconditionalVariance ;;
      let dvol := (Math_sqrt (variance * annualizationFactor) * Fin 100)%num in
      confidence <- calculateGARCHConfidence standardizedResiduals variances ;;
      Ok (dvol, confidence).

(** [calculatedAt: new Date()] reads the wall clock: [now] is the time
    it shows when the call is made.  A property of [options] left
    undefined takes its default. *)
Definition calculateDVOL (now : Z) (priceData : list PriceData)
    (method : DVOLMethod) (options : DVOLOptions) : result DVOLResult :=
  _ <- validateInput priceData method ;;
  let windowSize := match windowSize options with
                    | Some w => w | None => DEFAULT_WINDOW_SIZE end in
  let ewmaLambda := match ewmaLambda options with
                    | Some l => l | None => DEFAULT_EWMA_LAMBDA end in
  let garchParams := match garchParams options with
                     | Some g => g | None => DEFAULT_GARCH_PARAMS end in
  let annualizationFactor := match annualizationFactor options with
                             | Some f => f | None => ANNUALIZATION_FACTOR end in
  '(dvol, confidence) <-
    match method with
    | simple => calculateSimpleDVOL priceData windowSize annualizationFactor
    | ewma => calculateEWMADVOL priceData ewmaLambda annualizationFactor
    | garch => calculateGARCHDVOL priceData garchParams annualizationFactor
    end ;;
  let dvolIndex := calculateDVOLIndex dvol in
  Ok {| dvol := dvol;
        dvolIndex := dvolIndex;
        confidence := confidence;
        method := method;
        dataPoints := len priceData;
        calculatedAt := now |}.

Definition calculateAutocorrelation (returns : list num) (lag : Z) : result num :=
  if len returns <=? lag then Ok (Fin 0)
  else
    let n := len returns - lag in
    mean <- calculateMean returns ;;
    numerator <-
      for_loop 0 n
        (fun i numerator =>
           Ok (numerator
               + (get returns i - mean) * (get returns (i + lag) - mean))%num)
        (Fin 0) ;;
    denominator <-
      for_loop 0 (len returns)
        (fun i denominator =>
           Ok (denominator + Math_pow (get returns i - mean) 2)%num)
        (Fin 0) ;;
    Ok (if (denominator =? Fin 0)%num then Fin 0 else (numerator / denominator)%num).

Definition calculateHeteroskedasticity (returns : list num) : result num :=
  let squaredReturns := map (fun r => r * r)%num returns in
  calculateAutocorrelation squaredReturns 1.

Definition calculateSkewness (returns : list num) : result num :=
  mean <- calculateMean returns ;;
  std <- calculateStandardDeviation returns ;;
  if (std =? Fin 0)%num then Ok (Fin 0)
  else
    let n := len returns in
    let skewness :=
      (fold_left (fun sum r => sum + Math_pow ((r - mean) / std) 3)%num
         returns (Fin 0) / of_Z n)%num in
    Ok skewness.

Definition calculateKurtosis (returns : list num) : result num :=
  mean <- calculateMean returns ;;
  std <- calculateStandardDeviation returns ;;
  if (std =? Fin 0)%num then Ok (Fin 0)
  else
    let n := len returns in
    let kurtosis :=
      (fold_left (fun sum r => sum + Math_pow ((r - mean) / std) 4)%num
         returns (Fin 0) / of_Z n - Fin 3)%num in
    Ok kurtosis.

(** [method] and [options] are accepted and not used. *)
Definition calculateDiagnostics (priceData : list PriceData)
    (method : DVOLMethod) (options : DVOLOptions) : result Diagnostics :=
  let prices := map price priceData in
  logReturns <- calculateLogReturns prices ;;
  autocorrelation <- calculateAutocorrelation logReturns 1 ;;
  heteroskedasticity <- calculateHeteroskedasticity logReturns ;;
  skewness <- calculateSkewness logReturns ;;
  kurtosis <- calculateKurtosis logReturns ;;
  Ok {| autocorrelation := autocorrelation;
        heteroskedasticity := heteroskedasticity;
        skewness := skewness;
        kurtosis := kurtosis |}.

End DVOLCalculator.

(** ** Notions used by the statements *)

Import VolatilityCalculator DVOLCalculator.

(** A price the specification calls valid: finite and strictly positive. *)
Definition valid_price (p : num) : bool :=
  Number_isFinite p && (Fin 0 <? p)%num.

(** Strictly positive, as a JavaScript comparison ([0 < p]). *)
Definition positive (p : num) : bool := (Fin 0 <? p)%num.

(** The closed interval [[0, 100]] of the index and the confidence. *)
Definition in_0_100 (c : num) : bool := (Fin 0 <=? c)%num && (c <=? Fin 100)%num.

(** [f lo + f (lo + 1) + ... + f (lo + count - 1)], the sum the
    specification writes with a capital sigma. *)
Fixpoint Sigma (f : Z -> num) (lo : Z) (count : nat) : num :=
  match count with
  | O => Fin 0
  | S count' => (f lo + Sigma f (lo + 1) count')%num
  end.

(** The autocorrelation estimator in the specification's words: the
    numerator runs over [i = 0 .. n - lag - 1], the denominator over the
    entire series, and a zero denominator gives 0. *)
Definition autocorrelation_spec (returns : list num) (mean : num) (lag : Z) : num :=
  let numerator :=
    Sigma (fun i => (get returns i - mean) * (get returns (i + lag) - mean))%num
      0 (Z.to_nat (len returns - lag)) in
  let denominator :=
    Sigma (fun i => Math_pow (get returns i - mean) 2) 0 (length returns) in
  if (denominator =? Fin 0)%num then Fin 0 else (numerator / denominator)%num.

(** The sample standard deviation of the specification, for a window of
    at least two values. *)
Definition sample_stdev (window : list num) : num :=
  let mean := (fold_left add window (Fin 0) / of_Z (len window))%num in
  Math_sqrt
    (fold_left add (map (fun v => Math_pow (v - mean) 2) window) (Fin 0)
     / of_Z (len window - 1))%num.

(** A series of [n] points, all at price [p], the [k]-th stamped [k]. *)
Definition constant_series (p : num) (n : nat) : list PriceData :=
  map (fun k => {| timestamp := Z.of_nat k; price := p |}) (seq 0 n).

(** ** Real-valued counterparts, for arrays of finite numbers

    On an array [map Fin xs] of finite numbers the calculators of the
    model compute with real numbers; these are the values they compute. *)

Definition Rsum (xs : list R) : R := fold_right Rplus 0%R xs.

Definition Rmean (xs : list R) : R := (Rsum xs / IZR (len xs))%R.

Definition Rvariance (xs : list R) : R :=
  (Rsum (map (fun x => (x - Rmean xs) * (x - Rmean xs)) xs) / IZR (len xs - 1))%R.

(** [f lo + f (lo + 1) + ... + f (lo + count - 1)] on real numbers. *)
Fixpoint RSigma (f : Z -> R) (lo : Z) (count : nat) : R :=
  match count with
  | O => 0%R
  | S count' => (f lo + RSigma f (lo + 1) count')%R
  end.

(** ** The earlier EWMA estimator ([src/calculators/dvol2.ts])

    [calculateEWMAVolatility] of the earlier [DVOLCalculator]; its
    [lambda] defaults to 0.94.  The loop state is [ewmaVariance]. *)

Module DVOLCalculator2.

Definition calculateEWMAVolatility (priceData : list PriceData) (lambda : num)
    : result num :=
  let prices := map price priceData in
  logReturns <- calculateLogReturns prices ;;
  ewmaVariance <-
    for_loop 1 (len logReturns)
      (fun i ewmaVariance =>
         Ok (lambda * ewmaVariance
             + (Fin 1 - lambda) * Math_pow (get logReturns i) 2)%num)
      (Math_pow (get logReturns 0) 2) ;;
  Ok (Math_sqrt (ewmaVariance * Fin 365) * Fin 100)%num.

End DVOLCalculator2.

(** ** The providers' checks and synthetic histories
    ([src/providers/jupiter.ts], [coinlore.ts], [coindesk.ts])

    [typeof item.price === 'number'] and [typeof item.timestamp ===
    'number'] hold by the type of [PriceData].  [Date.now()] is the input
    [now]; the [k]-th value returned by [Math.random()] during a call is
    [random k]. *)

Inductive TimePeriod : Type := Period1d | Period30d | Period365d.

Definition Number_isNaN (a : num) : bool :=
  match a with NaN => true | _ => false end.

(** [for (let i = hi; i >= 0; i--) body], for a body that does not throw. *)
Fixpoint for_down_from {St : Type} (fuel : nat) (i : Z)
    (body : Z -> St -> St) (s : St) : St :=
  match fuel with
  | O => s
  | S fuel' => for_down_from fuel' (i - 1) body (body i s)
  end.

Definition for_down {St : Type} (hi : Z) (body : Z -> St -> St) (s : St) : St :=
  for_down_from (Z.to_nat (hi + 1)) hi body s.

Module JupiterProvider.

Definition getDaysFromPeriod (period : TimePeriod) : Z :=
  match period with
  | Period1d => 1
  | Period30d => 30
  | Period365d => 365
  end.

(** The same check is in the CoinGecko provider. *)
Definition validatePriceData (data : list PriceData) : bool :=
  (len data >? 1)
  && forallb (fun item => negb (Number_isNaN (price item))
                          && (Fin 0 <? price item)%num
                          && (timestamp item >? 0)) data.

End JupiterProvider.

Module CoinLoreProvider.

Definition getDaysFromPeriod (period : TimePeriod) : Z :=
  match period with
  | Period1d => 1
  | Period30d => 30
  | Period365d => 365
  end.

Definition validatePriceData (data : list PriceData) : bool :=
  (len data >? 1)
  && forallb (fun item => negb (Number_isNaN (price item))
                          && (Fin 0 <? price item)%num
                          && (timestamp item >? 0)) data.

(** The loop state is [(price, priceDataPoints, draws)], [draws] counting
    the calls of [Math.random()] so far. *)
Definition generateHistoricalData (currentPrice : num) (period : TimePeriod)
    (now : Z) (random : nat -> num) : list PriceData :=
  let days := getDaysFromPeriod period in
  let dayInMs := 24 * 60 * 60 * 1000 in
  let volatility := Fin (3 / 100) in
  let trend := ((random 0%nat - Fin (1 / 2)) * Fin (2 / 100))%num in
  let '(_, priceDataPoints, _) :=
    for_down (days - 1)
      (fun i '(price, priceDataPoints, draws) =>
         let timestamp := now - i * dayInMs in
         let randomWalk := ((random draws - Fin (1 / 2)) * Fin 2)%num in
         let priceChange := ((trend + randomWalk * volatility) * price)%num in
         let price := Math_max (price + priceChange) (currentPrice * Fin (1 / 2)) in
         (price,
          priceDataPoints ++ [{| timestamp := timestamp; price := price |}],
          S draws))
      (currentPrice, [], 1%nat) in
  priceDataPoints.

End CoinLoreProvider.

Module CoinDeskProvider.

Definition getDaysFromPeriod (p : TimePeriod) : Z :=
  match p with
  | Period1d => 1
  | Period30d => 30
  | Period365d => 365
  end.

Definition validatePriceData (data : list PriceData) : bool :=
  (len data >? 1)
  && forallb (fun d => (Fin 0 <? price d)%num && (timestamp d >? 0)) data.

(** The loop state is [(price, out, draws)]. *)
Definition generateSyntheticHistory (currentPrice : num) (period : TimePeriod)
    (now : Z) (random : nat -> num) : list PriceData :=
  let days := getDaysFromPeriod period in
  let dayInMs := 24 * 60 * 60 * 1000 in
  let volatility := Fin (35 / 1000) in
  let drift := ((random 0%nat - Fin (1 / 2)) * Fin (2 / 100))%num in
  let '(_, out, _) :=
    for_down (days - 1)
      (fun i '(price, out, draws) =>
         let timestamp := now - i * dayInMs in
         let rnd := ((random draws - Fin (1 / 2)) * Fin 2)%num in
         let change := ((drift + rnd * volatility) * price)%num in
         let price := Math_max (Fin (1 / 1000000)) (price + change) in
         (price, out ++ [{| timestamp := timestamp; price := price |}], S draws))
      (currentPrice, [], 1%nat) in
  out.

End CoinDeskProvider.

(** What a synthetic history is made of: [days] points, one a day up to
    [now], every price a finite number at or above [floor]. *)
Definition history_of (days now : Z) (floor : R) (out : list PriceData) : Prop :=
  len out = days /\
  Forall (fun d => exists x, price d = Fin x /\ (floor <= x)%R) out /\
  map timestamp out
  = map (fun k => now - (days - 1 - Z.of_nat k) * 86400000) (seq 0 (length out)).

(** * Properties *)

Unset Implicit Arguments.

(** ** Real comparisons *)

Lemma Rleb_true (x y : R) : (x <= y)%R -> Rleb x y = true.
Proof. intros H; unfold Rleb; destruct (Rle_dec x y); [reflexivity | contradiction]. Qed.

Lemma Rleb_false (x y : R) : (y < x)%R -> Rleb x y = false.
Proof. intros H; unfold Rleb; destruct (Rle_dec x y); [lra | reflexivity]. Qed.

Lemma Rltb_true (x y : R) : (x < y)%R -> Rltb x y = true.
Proof. intros H; unfold Rltb; destruct (Rlt_dec x y); [reflexivity | contradiction]. Qed.

Lemma Rltb_false (x y : R) : (y <= x)%R -> Rltb x y = false.
Proof. intros H; unfold Rltb; destruct (Rlt_dec x y); [lra | reflexivity]. Qed.

Lemma Reqb_true (x y : R) : x = y -> Reqb x y = true.
Proof. intros H; unfold Reqb; destruct (Req_dec_T x y); [reflexivity | contradiction]. Qed.

Lemma Reqb_false (x y : R) : x <> y -> Reqb x y = false.
Proof. intros H; unfold Reqb; destruct (Req_dec_T x y); [contradiction | reflexivity]. Qed.

(** Decide the comparisons of real numbers the goal is stuck on. *)
Ltac decide_R :=
  repeat match goal with
    | |- context [Rleb ?a ?b] =>
        first [ rewrite (@Rleb_true a b) by lra | rewrite (@Rleb_false a b) by lra ]
    | |- context [Rltb ?a ?b] =>
        first [ rewrite (@Rltb_true a b) by lra | rewrite (@Rltb_false a b) by lra ]
    | |- context [Reqb ?a ?b] =>
        first [ rewrite (@Reqb_true a b) by lra | rewrite (@Reqb_false a b) by lra ]
    end.

(** ** Arithmetic of [num] *)

Lemma add_comm (a b : num) : (a + b)%num = (b + a)%num.
Proof. destruct a, b; simpl; try reflexivity; f_equal; ring. Qed.

Lemma add_assoc (a b c : num) : (a + (b + c))%num = (a + b + c)%num.
Proof. destruct a, b, c; simpl; try reflexivity; f_equal; ring. Qed.

Lemma add_0_l (a : num) : (Fin 0 + a)%num = a.
Proof. destruct a; simpl; try reflexivity; f_equal; ring. Qed.

Lemma add_0_r (a : num) : (a + Fin 0)%num = a.
Proof. rewrite add_comm; apply add_0_l. Qed.

Lemma div_Fin (x y : R) : y <> 0%R -> (Fin x / Fin y)%num = Fin (x / y).
Proof. intros H; simpl; rewrite Reqb_false by assumption; reflexivity. Qed.

Lemma sqrt_Fin (x : R) : (0 <= x)%R -> Math_sqrt (Fin x) = Fin (sqrt x).
Proof. intros H; simpl; rewrite Rltb_false by assumption; reflexivity. Qed.

Lemma log_Fin (x : R) : (0 < x)%R -> Math_log (Fin x) = Fin (ln x).
Proof.
  intros H; simpl; rewrite Rltb_false by lra; rewrite Reqb_false by lra; reflexivity.
Qed.

Lemma positive_not_le_0 (p : num) : positive p = true -> (p <=? Fin 0)%num = false.
Proof.
  unfold positive, lt; destruct p; simpl; intros H; try discriminate; try reflexivity.
  destruct (Rleb x 0); [discriminate | reflexivity].
Qed.

Lemma valid_price_Fin (p : num) :
  valid_price p = true <-> exists x, p = Fin x /\ (0 < x)%R.
Proof.
  unfold valid_price, lt; split.
  - destruct p; simpl; intros H; try discriminate.
    exists x; split; [reflexivity |].
    destruct (Rle_dec x 0) as [Hle | Hnle].
    + rewrite Rleb_true in H by assumption; discriminate.
    + lra.
  - intros [x [-> Hx]]; simpl; rewrite Rleb_false by assumption; reflexivity.
Qed.

(** ** Arrays *)

Lemma len_app {A : Type} (l r : list A) : len (l ++ r) = len l + len r.
Proof. unfold len; rewrite length_app; lia. Qed.

Lemma len_snoc {A : Type} (l : list A) (x : A) : len (l ++ [x]) = len l + 1.
Proof. rewrite len_app; reflexivity. Qed.

Lemma len_map {A B : Type} (f : A -> B) (l : list A) : len (map f l) = len l.
Proof. unfold len; rewrite length_map; reflexivity. Qed.

Create Rewrite HintDb len.
#[global] Hint Rewrite @len_snoc @len_map : len.

Lemma get_app_l (l r : list num) (i : Z) :
  0 <= i < len l -> get (l ++ r) i = get l i.
Proof.
  unfold get, len; intros H.
  destruct (Z.ltb_spec i 0); [lia |].
  apply app_nth1; lia.
Qed.

Lemma get_snoc_last (l : list num) (x : num) (i : Z) :
  i = len l -> get (l ++ [x]) i = x.
Proof.
  unfold get, len; intros ->.
  destruct (Z.ltb_spec (Z.of_nat (length l)) 0); [lia |].
  rewrite Nat2Z.id, app_nth2 by (apply Nat.le_refl).
  rewrite Nat.sub_diag; reflexivity.
Qed.

Lemma get_Forall (P : num -> Prop) (l : list num) (i : Z) :
  Forall P l -> 0 <= i < len l -> P (get l i).
Proof.
  unfold get, len; intros HF H.
  destruct (Z.ltb_spec i 0); [lia |].
  rewrite Forall_forall in HF; apply HF, nth_In; lia.
Qed.

(** ** Loops *)

Section LoopInvariant.

Context {St : Type}.
Variable P : Z -> St -> Prop.
Variable body : Z -> St -> result St.

(** An invariant that holds on entry and is kept by every iteration,
    none of which throws, holds on exit, and the loop does not throw. *)
Lemma for_loop_from_inv :
  forall (fuel : nat) (i : Z) (s : St),
    P i s ->
    (forall j t, i <= j < i + Z.of_nat fuel -> P j t ->
                 exists t', body j t = Ok t' /\ P (j + 1) t') ->
    exists t, for_loop_from fuel i body s = Ok t /\ P (i + Z.of_nat fuel) t.
Proof.
  induction fuel as [| fuel IH]; intros i s Hs Hstep.
  - exists s; simpl; rewrite Z.add_0_r; auto.
  - destruct (Hstep i s ltac:(lia) Hs) as [s' [Hb Hs']].
    destruct (IH (i + 1) s' Hs') as [t [Ht HP]].
    + intros j t Hj; apply Hstep; lia.
    + exists t; split; [simpl; rewrite Hb; assumption |].
      replace (i + Z.of_nat (S fuel)) with (i + 1 + Z.of_nat fuel) by lia.
      assumption.
Qed.

Lemma for_loop_inv (lo hi : Z) (s : St) :
  lo <= hi ->
  P lo s ->
  (forall j t, lo <= j < hi -> P j t -> exists t', body j t = Ok t' /\ P (j + 1) t') ->
  exists t, for_loop lo hi body s = Ok t /\ P hi t.
Proof.
  intros Hle Hs Hstep; unfold for_loop.
  destruct (for_loop_from_inv (Z.to_nat (hi - lo)) lo s Hs) as [t [Ht HP]].
  - intros j t Hj; apply Hstep; lia.
  - exists t; split; [assumption |].
    replace (lo + Z.of_nat (Z.to_nat (hi - lo))) with hi in HP by lia.
    assumption.
Qed.

End LoopInvariant.

(** ** Log returns *)

Lemma calculateLogReturns_short (prices : list num) :
  len prices < 2 -> calculateLogReturns prices = Throw NeedTwoPricePointsForReturns.
Proof.
  intros H; unfold calculateLogReturns.
  destruct (Z.ltb_spec (len prices) 2); [reflexivity | lia].
Qed.

Lemma calculateLogReturns_ok (prices : list num) :
  2 <= len prices ->
  Forall (fun p => positive p = true) prices ->
  exists returns,
    calculateLogReturns prices = Ok returns /\
    len returns = len prices - 1 /\
    forall i, 1 <= i < len prices ->
      get returns (i - 1) = Math_log (get prices i / get prices (i - 1)).
Proof.
  intros Hlen Hpos; unfold calculateLogReturns.
  destruct (Z.ltb_spec (len prices) 2); [lia |].
  apply (for_loop_inv
           (fun i returns =>
              len returns = i - 1 /\
              forall j, 1 <= j < i ->
                get returns (j - 1) = Math_log (get prices j / get prices (j - 1)))).
  - lia.
  - split; [reflexivity | intros j Hj; lia].
  - intros j t Hj [Hl Hget].
    rewrite (positive_not_le_0 (get prices (j - 1))), (positive_not_le_0 (get prices j));
      try (apply (get_Forall (fun p => positive p = true)); [assumption | lia]).
    simpl; eexists; split; [reflexivity |].
    split; [autorewrite with len; lia |].
    intros k Hk.
    destruct (Z.eq_dec k j) as [-> | Hne].
    + apply get_snoc_last; lia.
    + rewrite get_app_l by lia; apply Hget; lia.
Qed.

(** C8.  For every sequence of [n >= 2] positive prices,
    [calculateLogReturns] returns a sequence of exactly [n - 1] elements
    whose [i]-th is [ln (price_i / price_{i-1})]; with [n < 2] it fails, with
    an error of the class InsufficientData. *)
Theorem C8_calculateLogReturns_length_and_elements (prices : list num) :
  (2 <= len prices ->
   Forall (fun p => positive p = true) prices ->
   exists returns,
     calculateLogReturns prices = Ok returns /\
     len returns = len prices - 1 /\
     forall i, 1 <= i < len prices ->
       get returns (i - 1) = Math_log (get prices i / get prices (i - 1)))
  /\
  (len prices < 2 ->
   exists e, calculateLogReturns prices = Throw e /\ kind_of e = InsufficientData).
Proof.
  split.
  - apply calculateLogReturns_ok.
  - intros H; rewrite calculateLogReturns_short by assumption.
    eexists; split; reflexivity.
Qed.

Lemma positive_Fin (x : R) : (0 < x)%R -> positive (Fin x) = true.
Proof. intros H; unfold positive; simpl; rewrite Rleb_false by assumption; reflexivity. Qed.

Lemma C8_witness :
  (exists returns,
     calculateLogReturns [Fin 100; Fin 110; Fin 121] = Ok returns /\
     len returns = len [Fin 100; Fin 110; Fin 121] - 1 /\
     forall i, 1 <= i < len [Fin 100; Fin 110; Fin 121] ->
       get returns (i - 1)
       = Math_log (get [Fin 100; Fin 110; Fin 121] i
                   / get [Fin 100; Fin 110; Fin 121] (i - 1)))
  /\
  (exists e, calculateLogReturns [Fin 7] = Throw e /\ kind_of e = InsufficientData).
Proof.
  split.
  - apply (proj1 (C8_calculateLogReturns_length_and_elements
                    [Fin 100; Fin 110; Fin 121])).
    + unfold len; simpl; lia.
    + repeat constructor; apply positive_Fin; lra.
  - apply (proj2 (C8_calculateLogReturns_length_and_elements [Fin 7])).
    unfold len; simpl; lia.
Defined.

(** ** Diagnostics on a series of two points *)

Lemma valid_price_positive (p : num) : valid_price p = true -> positive p = true.
Proof. unfold valid_price, positive; intros H; apply andb_prop in H; tauto. Qed.

Lemma len_1_singleton {A : Type} (l : list A) : len l = 1 -> exists a, l = [a].
Proof.
  unfold len; destruct l as [| a [| b l]]; simpl; intros H; try lia.
  exists a; reflexivity.
Qed.

(** C10.  For every series of exactly two valid points there is exactly
    one log return; on it the autocorrelation and the heteroskedasticity
    short-circuit to 0, the skewness throws, because the sample standard
    deviation needs two values, and so [calculateDiagnostics] throws
    instead of returning a result. *)
Theorem C10_diagnostics_two_points_throws
    (d0 d1 : PriceData) (method : DVOLMethod) (options : DVOLOptions) :
  valid_price (price d0) = true ->
  valid_price (price d1) = true ->
  exists r,
    calculateLogReturns [price d0; price d1] = Ok [r] /\
    calculateAutocorrelation [r] 1 = Ok (Fin 0) /\
    calculateHeteroskedasticity [r] = Ok (Fin 0) /\
    calculateSkewness [r] = Throw NeedTwoValuesForVariance /\
    calculateDiagnostics [d0; d1] method options = Throw NeedTwoValuesForVariance.
Proof.
  intros H0 H1.
  destruct (calculateLogReturns_ok [price d0; price d1]) as [returns [Hret [Hlen _]]].
  - unfold len; simpl; lia.
  - repeat constructor; apply valid_price_positive; assumption.
  - destruct (len_1_singleton returns) as [r ->]; [rewrite Hlen; reflexivity |].
    exists r; repeat split; try assumption; try reflexivity.
    unfold calculateDiagnostics; simpl map; rewrite Hret; reflexivity.
Qed.

Lemma C10_witness :
  exists r,
    calculateLogReturns [Fin 100; Fin 105] = Ok [r] /\
    calculateAutocorrelation [r] 1 = Ok (Fin 0) /\
    calculateHeteroskedasticity [r] = Ok (Fin 0) /\
    calculateSkewness [r] = Throw NeedTwoValuesForVariance /\
    calculateDiagnostics
      [ {| timestamp := 0; price := Fin 100 |};
        {| timestamp := 1; price := Fin 105 |} ] garch no_options
    = Throw NeedTwoValuesForVariance.
Proof.
  apply (C10_diagnostics_two_points_throws
           {| timestamp := 0; price := Fin 100 |}
           {| timestamp := 1; price := Fin 105 |} garch no_options);
    apply valid_price_Fin; eexists; (split; [reflexivity | lra]).
Defined.

(** ** Mean, variance and sums *)

Lemma calculateMean_ok (values : list num) :
  len values <> 0 ->
  calculateMean values = Ok (fold_left add values (Fin 0) / of_Z (len values))%num.
Proof.
  intros H; unfold calculateMean.
  destruct (Z.eqb_spec (len values) 0); [contradiction | reflexivity].
Qed.

Lemma calculateVariance_ok (values : list num) :
  2 <= len values ->
  calculateVariance values
  = Ok (fold_left add
          (map (fun v =>
                  Math_pow (v - fold_left add values (Fin 0) / of_Z (len values)) 2)
               values) (Fin 0)
        / of_Z (len values - 1))%num.
Proof.
  intros H; unfold calculateVariance.
  destruct (Z.ltb_spec (len values) 2); [lia |].
  rewrite calculateMean_ok by lia; reflexivity.
Qed.

Lemma calculateVariance_short (values : list num) :
  len values < 2 -> calculateVariance values = Throw NeedTwoValuesForVariance.
Proof.
  intros H; unfold calculateVariance.
  destruct (Z.ltb_spec (len values) 2); [reflexivity | lia].
Qed.

Lemma calculateStandardDeviation_ok (values : list num) :
  2 <= len values -> calculateStandardDeviation values = Ok (sample_stdev values).
Proof.
  intros H; unfold calculateStandardDeviation.
  rewrite calculateVariance_ok by assumption; reflexivity.
Qed.

Lemma accumulate_from (f : Z -> num) :
  forall (fuel : nat) (i : Z) (acc : num),
    for_loop_from fuel i (fun i acc => Ok (acc + f i)%num) acc
    = Ok (acc + Sigma f i fuel)%num.
Proof.
  induction fuel as [| fuel IH]; intros i acc; simpl.
  - rewrite add_0_r; reflexivity.
  - rewrite IH, add_assoc; reflexivity.
Qed.

Lemma accumulate (f : Z -> num) (hi : Z) :
  for_loop 0 hi (fun i acc => Ok (acc + f i)%num) (Fin 0)
  = Ok (Sigma f 0 (Z.to_nat hi)).
Proof.
  unfold for_loop; rewrite accumulate_from, add_0_l, Z.sub_0_r; reflexivity.
Qed.

(** ** Autocorrelation *)

(** C9.  For a returns series of length [n > lag] (and [lag >= 0]),
    [calculateAutocorrelation] is the quotient whose numerator sums
    [(r_i - mean) (r_{i+lag} - mean)] over [i = 0 .. n - lag - 1] only and
    whose denominator sums [(r_i - mean)^2] over all [n] terms, and it is
    0 when the denominator is 0. *)
Theorem C9_autocorrelation_index_ranges (returns : list num) (lag : Z) :
  0 <= lag < len returns ->
  exists mean,
    calculateMean returns = Ok mean /\
    calculateAutocorrelation returns lag
    = Ok (autocorrelation_spec returns mean lag) /\
    (Sigma (fun i => Math_pow (get returns i - mean) 2) 0 (length returns) = Fin 0 ->
     calculateAutocorrelation returns lag = Ok (Fin 0)).
Proof.
  intros Hlag.
  assert (Hcode : calculateAutocorrelation returns lag
                  = Ok (autocorrelation_spec returns
                          (fold_left add returns (Fin 0) / of_Z (len returns))%num lag)).
  { unfold calculateAutocorrelation, autocorrelation_spec.
    destruct (Z.leb_spec (len returns) lag); [lia |].
    rewrite calculateMean_ok by lia; cbn [bind].
    rewrite (accumulate
               (fun i => (get returns i
                          - fold_left add returns (Fin 0) / of_Z (len returns))
                         * (get returns (i + lag)
                            - fold_left add returns (Fin 0) / of_Z (len returns)))%num).
    cbn [bind].
    rewrite (accumulate
               (fun i => Math_pow
                           (get returns i
                            - fold_left add returns (Fin 0) / of_Z (len returns)) 2)).
    cbn [bind].
    replace (Z.to_nat (len returns)) with (length returns)
      by (unfold len; rewrite Nat2Z.id; reflexivity).
    reflexivity. }
  eexists; split; [apply calculateMean_ok; lia |].
  split; [exact Hcode |].
  intros Hden; rewrite Hcode; unfold autocorrelation_spec.
  rewrite Hden; simpl; rewrite Reqb_true by reflexivity; reflexivity.
Qed.

Lemma C9_witness :
  exists mean,
    calculateMean [Fin 1; Fin 2; Fin 4] = Ok mean /\
    calculateAutocorrelation [Fin 1; Fin 2; Fin 4] 1
    = Ok (autocorrelation_spec [Fin 1; Fin 2; Fin 4] mean 1) /\
    (Sigma (fun i => Math_pow (get [Fin 1; Fin 2; Fin 4] i - mean) 2) 0
       (length [Fin 1; Fin 2; Fin 4]) = Fin 0 ->
     calculateAutocorrelation [Fin 1; Fin 2; Fin 4] 1 = Ok (Fin 0)).
Proof.
  apply (C9_autocorrelation_index_ranges [Fin 1; Fin 2; Fin 4] 1).
  unfold len; simpl; lia.
Defined.

(** ** Input validation and the confidence helpers *)

Lemma valid_price_not_invalid (p : num) :
  valid_price p = true ->
  negb (Number_isFinite p) || (p <=? Fin 0)%num = false.
Proof.
  intros H; rewrite (positive_not_le_0 p) by (apply valid_price_positive; assumption).
  unfold valid_price in H; apply andb_prop in H; destruct H as [-> _]; reflexivity.
Qed.

Lemma filter_invalid_nil (priceData : list PriceData) :
  Forall (fun d => valid_price (price d) = true) priceData ->
  filter (fun data => negb (Number_isFinite (price data))
                      || (price data <=? Fin 0)%num) priceData = [].
Proof.
  induction 1 as [| d l Hd _ IH]; simpl; [reflexivity |].
  rewrite valid_price_not_invalid by assumption; exact IH.
Qed.

Lemma validateInput_ok (priceData : list PriceData) (method : DVOLMethod) :
  match method with garch => 10 | ewma => 5 | simple => 2 end <= len priceData ->
  Forall (fun d => valid_price (price d) = true) priceData ->
  validateInput priceData method = Ok tt.
Proof.
  intros Hlen Hvalid; unfold validateInput.
  assert (2 <= len priceData) by (destruct method; lia).
  destruct (Z.eqb_spec (len priceData) 0); [lia |].
  destruct (Z.ltb_spec (len priceData) 2); [lia |].
  destruct (Z.ltb_spec (len priceData)
              match method with garch => 10 | ewma => 5 | simple => 2 end); [lia |].
  rewrite filter_invalid_nil by assumption; reflexivity.
Qed.

Lemma valid_prices_positive (priceData : list PriceData) :
  Forall (fun d => valid_price (price d) = true) priceData ->
  Forall (fun p => positive p = true) (map price priceData).
Proof.
  induction 1; simpl; constructor; auto using valid_price_positive.
Qed.

Lemma calculateStability_total (variances : list num) :
  exists c, calculateStability variances = Ok c.
Proof.
  unfold calculateStability.
  destruct (Z.ltb_spec (len variances) 2); [eexists; reflexivity |].
  rewrite calculateMean_ok by lia.
  rewrite calculateStandardDeviation_ok by lia.
  eexists; reflexivity.
Qed.

(** ** The EWMA estimator *)

Lemma ewmaVariances_spec (logReturns : list num) (lambda : num) :
  1 <= len logReturns ->
  exists ewmaVariance variances,
    ewmaVariances logReturns lambda = Ok (ewmaVariance, variances) /\
    len variances = len logReturns /\
    ewmaVariance = get variances (len logReturns - 1) /\
    get variances 0 = Math_pow (get logReturns 0) 2 /\
    forall t, 1 <= t < len logReturns ->
      get variances t
      = (lambda * get variances (t - 1)
         + (Fin 1 - lambda) * Math_pow (get logReturns t) 2)%num.
Proof.
  intros Hlen; unfold ewmaVariances.
  destruct (for_loop_inv
              (fun i (st : num * list num) =>
                 let (v, vs) := st in
                 len vs = i /\
                 v = get vs (i - 1) /\
                 get vs 0 = Math_pow (get logReturns 0) 2 /\
                 forall t, 1 <= t < i ->
                   get vs t
                   = (lambda * get vs (t - 1)
                      + (Fin 1 - lambda) * Math_pow (get logReturns t) 2)%num)
              (fun i '(ewmaVariance, variances) =>
                 let ewmaVariance :=
                   (lambda * ewmaVariance
                    + (Fin 1 - lambda) * Math_pow (get logReturns i) 2)%num in
                 Ok (ewmaVariance, variances ++ [ewmaVariance]))
              1 (len logReturns)
              (Math_pow (get logReturns 0) 2, [Math_pow (get logReturns 0) 2]))
    as [[v vs] [Hrun [Hl [Hv [H0 Hrec]]]]].
  - assumption.
  - repeat split; intros; lia.
  - intros j [v vs] Hj [Hl [Hv [H0 Hrec]]].
    eexists; split; [reflexivity |].
    split; [autorewrite with len; lia |].
    split; [symmetry; apply get_snoc_last; lia |].
    split; [rewrite get_app_l by lia; assumption |].
    intros t Ht.
    destruct (Z.eq_dec t j) as [-> | Hne].
    + rewrite get_snoc_last by lia.
      rewrite get_app_l by lia; rewrite <- Hv; reflexivity.
    + rewrite !get_app_l by lia; apply Hrec; lia.
  - exists v, vs; repeat split; assumption.
Qed.

Lemma calculateEWMADVOL_spec (priceData : list PriceData) (lambda af : num) (l : R) :
  lambda = Fin l -> (0 < l < 1)%R ->
  3 <= len priceData ->
  Forall (fun d => valid_price (price d) = true) priceData ->
  exists returns ewmaVariance variances conf,
    calculateLogReturns (map price priceData) = Ok returns /\
    len returns = len priceData - 1 /\
    ewmaVariances returns lambda = Ok (ewmaVariance, variances) /\
    calculateStability (slice variances (- Z.min 10 (len variances)) (len variances))
    = Ok conf /\
    calculateEWMADVOL priceData lambda af
    = Ok ((Math_sqrt (ewmaVariance * af) * Fin 100)%num,
          Math_max (Fin 0) (Math_min (Fin 100) conf)).
Proof.
  intros -> Hl Hlen Hvalid.
  destruct (calculateLogReturns_ok (map price priceData)) as [returns [Hret [Hrl _]]].
  { autorewrite with len; lia. }
  { apply valid_prices_positive; assumption. }
  rewrite len_map in Hrl.
  destruct (ewmaVariances_spec returns (Fin l)) as [v [vs [Hrun _]]]; [lia |].
  destruct (calculateStability_total (slice vs (- Z.min 10 (len vs)) (len vs)))
    as [conf Hconf].
  exists returns, v, vs, conf.
  repeat split; try assumption.
  unfold calculateEWMADVOL; simpl le; unfold ge; simpl le.
  rewrite Rleb_false, Rleb_false by lra; simpl orb; cbv iota.
  rewrite Hret; cbn [bind].
  destruct (Z.ltb_spec (len returns) 2); [lia |].
  rewrite Hrun; cbn [bind]; rewrite Hconf; reflexivity.
Qed.

(** C6.  For every valid input to the EWMA method with [lambda] in the
    open interval (0, 1), the variance series computed by the loop satisfies
    [var_0 = returns[0]^2] and
    [var_t = lambda * var_{t-1} + (1 - lambda) * returns[t]^2] for [t >= 1],
    and the returned [dvol] is [sqrt (var_last * annualizationFactor) * 100]. *)
Theorem C6_ewma_recurrence_and_dvol
    (now : Z) (priceData : list PriceData) (options : DVOLOptions) (l : R) :
  match ewmaLambda options with Some x => x | None => DEFAULT_EWMA_LAMBDA end
  = Fin l ->
  (0 < l < 1)%R ->
  5 <= len priceData ->
  Forall (fun d => valid_price (price d) = true) priceData ->
  exists returns variances r,
    calculateLogReturns (map price priceData) = Ok returns /\
    (exists last, ewmaVariances returns (Fin l) = Ok (last, variances)) /\
    len variances = len returns /\
    get variances 0 = Math_pow (get returns 0) 2 /\
    (forall t, 1 <= t < len returns ->
       get variances t
       = (Fin l * get variances (t - 1)
          + (Fin 1 - Fin l) * Math_pow (get returns t) 2)%num) /\
    calculateDVOL now priceData ewma options = Ok r /\
    dvol r
    = (Math_sqrt
         (get variances (len returns - 1)
          * match annualizationFactor options with
            | Some f => f
            | None => ANNUALIZATION_FACTOR
            end)
       * Fin 100)%num.
Proof.
  intros Hlam Hl Hlen Hvalid.
  destruct (calculateEWMADVOL_spec priceData (Fin l)
              match annualizationFactor options with
              | Some f => f
              | None => ANNUALIZATION_FACTOR
              end l eq_refl Hl ltac:(lia) Hvalid)
    as [returns [v [vs [conf [Hret [Hrl [Hrun [_ Hcode]]]]]]]].
  destruct (ewmaVariances_spec returns (Fin l)) as [v' [vs' [Hrun' [Hl' [Hv' [H0 Hrec]]]]]];
    [lia |].
  rewrite Hrun in Hrun'; injection Hrun' as <- <-.
  exists returns, vs; eexists.
  split; [exact Hret |].
  split; [exists v; exact Hrun |].
  split; [exact Hl' |].
  split; [exact H0 |].
  split; [exact Hrec |].
  unfold calculateDVOL.
  rewrite validateInput_ok by (simpl; assumption); cbn [bind].
  rewrite Hlam, Hcode; cbn [bind].
  split; [reflexivity |].
  simpl dvol; rewrite Hv'; reflexivity.
Qed.

Lemma C6_witness :
  exists returns variances r,
    calculateLogReturns
      (map price (map (fun p => {| timestamp := 0; price := Fin p |})
                      [100; 110; 121; 110; 100]%R)) = Ok returns /\
    (exists last, ewmaVariances returns (Fin (94 / 100)) = Ok (last, variances)) /\
    len variances = len returns /\
    get variances 0 = Math_pow (get returns 0) 2 /\
    (forall t, 1 <= t < len returns ->
       get variances t
       = (Fin (94 / 100) * get variances (t - 1)
          + (Fin 1 - Fin (94 / 100)) * Math_pow (get returns t) 2)%num) /\
    calculateDVOL 0
      (map (fun p => {| timestamp := 0; price := Fin p |})
           [100; 110; 121; 110; 100]%R) ewma no_options = Ok r /\
    dvol r
    = (Math_sqrt (get variances (len returns - 1) * ANNUALIZATION_FACTOR)
       * Fin 100)%num.
Proof.
  apply (C6_ewma_recurrence_and_dvol 0
           (map (fun p => {| timestamp := 0; price := Fin p |})
                [100; 110; 121; 110; 100]%R) no_options (94 / 100)).
  - reflexivity.
  - lra.
  - unfold len; simpl; lia.
  - repeat constructor; apply valid_price_Fin; eexists;
      (split; [reflexivity | lra]).
Defined.

(** ** Arrays of one repeated value *)

Lemma get_repeat (a : num) (m : nat) (i : Z) :
  0 <= i < Z.of_nat m -> get (repeat a m) i = a.
Proof.
  intros H; unfold get.
  destruct (Z.ltb_spec i 0); [lia |].
  apply nth_repeat_lt; lia.
Qed.

Lemma len_repeat {A : Type} (a : A) (m : nat) : len (repeat a m) = Z.of_nat m.
Proof. unfold len; rewrite repeat_length; reflexivity. Qed.

#[global] Hint Rewrite @len_repeat : len.

Lemma skipn_repeat {A : Type} (a : A) :
  forall (j m : nat), skipn j (repeat a m) = repeat a (m - j).
Proof.
  induction j as [| j IH]; intros m.
  - rewrite Nat.sub_0_r; reflexivity.
  - destruct m as [| m]; simpl; [reflexivity | apply IH].
Qed.

Lemma firstn_repeat {A : Type} (a : A) :
  forall (k m : nat), (k <= m)%nat -> firstn k (repeat a m) = repeat a k.
Proof.
  induction k as [| k IH]; intros m H; [reflexivity |].
  destruct m as [| m]; [lia |].
  simpl; f_equal; apply IH; lia.
Qed.

Lemma slice_repeat {A : Type} (a : A) (m : nat) (start stop : Z) :
  0 <= start <= stop -> stop <= Z.of_nat m ->
  slice (repeat a m) start stop = repeat a (Z.to_nat (stop - start)).
Proof.
  intros H1 H2; unfold slice, relative_index; rewrite len_repeat.
  destruct (Z.ltb_spec start 0); [lia |].
  destruct (Z.ltb_spec stop 0); [lia |].
  rewrite skipn_repeat, firstn_repeat by lia.
  f_equal; lia.
Qed.

Lemma slice_tail_repeat {A : Type} (a : A) (m : nat) :
  slice (repeat a m) (- Z.min 10 (Z.of_nat m)) (Z.of_nat m)
  = repeat a (Nat.min 10 m).
Proof.
  unfold slice, relative_index; rewrite len_repeat.
  destruct (Z.ltb_spec (- Z.min 10 (Z.of_nat m)) 0);
    destruct (Z.ltb_spec (Z.of_nat m) 0); try lia;
    rewrite skipn_repeat, firstn_repeat by lia; f_equal; lia.
Qed.

Lemma len_slice {A : Type} (l : list A) (start stop : Z) :
  0 <= start <= stop -> stop <= len l -> len (slice l start stop) = stop - start.
Proof.
  intros H1 H2; unfold slice, relative_index.
  destruct (Z.ltb_spec start 0); [lia |].
  destruct (Z.ltb_spec stop 0); [lia |].
  unfold len in *; rewrite length_firstn, length_skipn; lia.
Qed.

Lemma all_get_repeat (a : num) (l : list num) :
  (forall i, 0 <= i < len l -> get l i = a) -> l = repeat a (length l).
Proof.
  intros H; apply Forall_eq_repeat, Forall_forall; intros x Hx.
  destruct (In_nth l x NaN Hx) as [k [Hk Hnth]].
  rewrite <- Hnth, <- (H (Z.of_nat k)) by (unfold len; lia).
  unfold get; destruct (Z.ltb_spec (Z.of_nat k) 0); [lia |].
  rewrite Nat2Z.id; reflexivity.
Qed.

Lemma fold_add_zeros (m : nat) (acc : num) :
  fold_left add (repeat (Fin 0) m) acc = acc.
Proof.
  revert acc; induction m as [| m IH]; intros acc; simpl; [reflexivity |].
  rewrite IH; apply add_0_r.
Qed.

Lemma Fin_0_over (z : Z) : z <> 0 -> (Fin 0 / of_Z z)%num = Fin 0.
Proof.
  intros H; unfold of_Z; rewrite div_Fin by (apply not_0_IZR; assumption).
  f_equal; unfold Rdiv; ring.
Qed.

Lemma calculateMean_zeros (m : nat) :
  (1 <= m)%nat -> calculateMean (repeat (Fin 0) m) = Ok (Fin 0).
Proof.
  intros H; rewrite calculateMean_ok by (autorewrite with len; lia).
  rewrite fold_add_zeros, len_repeat, Fin_0_over by lia; reflexivity.
Qed.

Lemma calculateVariance_zeros (m : nat) :
  (2 <= m)%nat -> calculateVariance (repeat (Fin 0) m) = Ok (Fin 0).
Proof.
  intros H; rewrite calculateVariance_ok by (autorewrite with len; lia).
  rewrite fold_add_zeros, len_repeat, Fin_0_over by lia.
  rewrite map_repeat.
  replace (Math_pow (Fin 0 - Fin 0) 2) with (Fin 0)
    by (simpl; f_equal; ring).
  rewrite fold_add_zeros, Fin_0_over by lia; reflexivity.
Qed.

Lemma sqrt_Fin_0 : Math_sqrt (Fin 0) = Fin 0.
Proof. rewrite sqrt_Fin by lra; rewrite sqrt_0; reflexivity. Qed.

Lemma calculateStandardDeviation_zeros (m : nat) :
  (2 <= m)%nat -> calculateStandardDeviation (repeat (Fin 0) m) = Ok (Fin 0).
Proof.
  intros H; unfold calculateStandardDeviation.
  rewrite calculateVariance_zeros by assumption; cbn [bind].
  rewrite sqrt_Fin_0; reflexivity.
Qed.

(** [0 / 0] is [NaN], and the clamp [Math.max(0, Math.min(100, .))] lets
    it through. *)
Lemma zero_over_zero : (Fin 0 / Fin 0)%num = NaN.
Proof. simpl; rewrite Reqb_true by reflexivity; unfold scale_inf;
       rewrite Reqb_true by reflexivity; reflexivity. Qed.

Lemma calculateStability_zeros (m : nat) :
  (2 <= m)%nat -> calculateStability (repeat (Fin 0) m) = Ok NaN.
Proof.
  intros H; unfold calculateStability; rewrite len_repeat.
  destruct (Z.ltb_spec (Z.of_nat m) 2); [lia |].
  rewrite calculateMean_zeros by lia; cbn [bind].
  rewrite calculateStandardDeviation_zeros by lia; cbn [bind].
  rewrite zero_over_zero; reflexivity.
Qed.

(** ** Series of constant price *)

Lemma constant_prices (x : R) (priceData : list PriceData) :
  Forall (fun d => price d = Fin x) priceData ->
  map price priceData = repeat (Fin x) (length priceData).
Proof.
  induction 1 as [| d l Hd _ IH]; simpl; [reflexivity |].
  rewrite Hd, IH; reflexivity.
Qed.

Lemma constant_valid (x : R) (priceData : list PriceData) :
  (0 < x)%R ->
  Forall (fun d => price d = Fin x) priceData ->
  Forall (fun d => valid_price (price d) = true) priceData.
Proof.
  intros Hx H; induction H as [| d l Hd _ IH]; constructor; [| exact IH].
  apply valid_price_Fin; exists x; split; assumption.
Qed.

Lemma log_ratio_same (x : R) : (0 < x)%R -> Math_log (Fin x / Fin x) = Fin 0.
Proof.
  intros H; rewrite div_Fin by lra.
  replace (x / x)%R with 1%R by (field; lra).
  rewrite log_Fin by lra; rewrite ln_1; reflexivity.
Qed.

Lemma calculateLogReturns_constant (x : R) (n : nat) :
  (0 < x)%R -> (2 <= n)%nat ->
  calculateLogReturns (repeat (Fin x) n) = Ok (repeat (Fin 0) (n - 1)).
Proof.
  intros Hx Hn.
  destruct (calculateLogReturns_ok (repeat (Fin x) n)) as [returns [Hret [Hlen Hget]]].
  - rewrite len_repeat; lia.
  - apply Forall_forall; intros p Hp; apply repeat_spec in Hp; subst p.
    apply positive_Fin; assumption.
  - rewrite len_repeat in Hlen, Hget.
    rewrite Hret; f_equal.
    replace (n - 1)%nat with (length returns) by (unfold len in Hlen; lia).
    apply all_get_repeat; intros i Hi.
    replace i with (i + 1 - 1) at 1 by lia.
    rewrite Hget by lia.
    rewrite !get_repeat by lia.
    apply log_ratio_same; assumption.
Qed.

Lemma ewmaVariances_zeros (m : nat) (l : R) :
  (1 <= m)%nat ->
  ewmaVariances (repeat (Fin 0) m) (Fin l) = Ok (Fin 0, repeat (Fin 0) m).
Proof.
  intros Hm.
  destruct (ewmaVariances_spec (repeat (Fin 0) m) (Fin l))
    as [v [vs [Hrun [Hlen [Hv [H0 Hrec]]]]]]; [rewrite len_repeat; lia |].
  rewrite len_repeat in Hlen, Hv, Hrec.
  assert (Hall : forall (k : nat) (t : Z),
             t = Z.of_nat k -> t < Z.of_nat m -> get vs t = Fin 0).
  { induction k as [| k IH]; intros t -> Ht.
    - change (Z.of_nat 0) with 0.
      rewrite H0, get_repeat by lia; simpl; f_equal; ring.
    - rewrite Hrec by lia.
      rewrite (IH (Z.of_nat (S k) - 1)) by lia.
      rewrite get_repeat by lia; simpl; f_equal; ring. }
  assert (Hvs : vs = repeat (Fin 0) m).
  { replace m with (length vs) by (unfold len in Hlen; lia).
    apply all_get_repeat; intros i Hi.
    apply (Hall (Z.to_nat i)); lia. }
  rewrite Hrun, Hv, Hvs, get_repeat by lia; reflexivity.
Qed.

Lemma sqrt_zero_scaled (f : R) :
  (Math_sqrt (Fin 0 * Fin f) * Fin 100)%num = Fin 0.
Proof.
  simpl mul at 2.
  replace (0 * f)%R with 0%R by ring.
  rewrite sqrt_Fin_0; simpl; f_equal; ring.
Qed.

Lemma calculateEWMADVOL_constant (priceData : list PriceData) (x l f : R) :
  (0 < x)%R -> (0 < l < 1)%R ->
  Forall (fun d => price d = Fin x) priceData ->
  3 <= len priceData ->
  calculateEWMADVOL priceData (Fin l) (Fin f) = Ok (Fin 0, NaN).
Proof.
  intros Hx Hl Hconst Hlen.
  destruct (calculateEWMADVOL_spec priceData (Fin l) (Fin f) l eq_refl Hl Hlen
              (constant_valid x priceData Hx Hconst))
    as [returns [v [vs [conf [Hret [_ [Hrun [Hconf Hcode]]]]]]]].
  rewrite (constant_prices x priceData Hconst) in Hret.
  rewrite calculateLogReturns_constant in Hret by (unfold len in Hlen; lia || assumption).
  injection Hret as <-.
  rewrite ewmaVariances_zeros in Hrun by (unfold len in Hlen; lia).
  injection Hrun as <- <-.
  rewrite len_repeat, slice_tail_repeat in Hconf.
  rewrite calculateStability_zeros in Hconf by (unfold len in Hlen; lia).
  injection Hconf as <-.
  rewrite Hcode, sqrt_zero_scaled; reflexivity.
Qed.

(** ** The rolling-window estimator *)

Lemma rollingVolatilities_spec (logReturns : list num) (windowSize : Z) :
  2 <= windowSize <= len logReturns ->
  exists volatilities,
    rollingVolatilities logReturns windowSize = Ok volatilities /\
    len volatilities = len logReturns - windowSize + 1 /\
    forall i, windowSize - 1 <= i < len logReturns ->
      len (slice logReturns (i - windowSize + 1) (i + 1)) = windowSize /\
      get volatilities (i - (windowSize - 1))
      = sample_stdev (slice logReturns (i - windowSize + 1) (i + 1)).
Proof.
  intros Hw; unfold rollingVolatilities.
  destruct (for_loop_inv
              (fun i vols =>
                 len vols = i - (windowSize - 1) /\
                 forall j, windowSize - 1 <= j < i ->
                   len (slice logReturns (j - windowSize + 1) (j + 1)) = windowSize /\
                   get vols (j - (windowSize - 1))
                   = sample_stdev (slice logReturns (j - windowSize + 1) (j + 1)))
              (fun i volatilities =>
                 let window := slice logReturns (i - windowSize + 1) (i + 1) in
                 variance <- calculateVariance window ;;
                 let volatility := Math_sqrt variance in
                 Ok (volatilities ++ [volatility]))
              (windowSize - 1) (len logReturns) [])
    as [vols [Hrun [Hlen Hget]]].
  - lia.
  - split; [unfold len; simpl; lia | intros j Hj; lia].
  - intros j vols Hj [Hlen Hget].
    assert (Hwin : len (slice logReturns (j - windowSize + 1) (j + 1)) = windowSize)
      by (rewrite len_slice; lia).
    cbv zeta; rewrite calculateVariance_ok by lia; cbn [bind].
    eexists; split; [reflexivity |].
    split; [autorewrite with len; lia |].
    intros k Hk.
    destruct (Z.eq_dec k j) as [-> | Hne].
    + split; [assumption |].
      rewrite get_snoc_last by lia; reflexivity.
    + rewrite get_app_l by lia; apply Hget; lia.
  - exists vols; repeat split; try assumption; try lia; apply Hget; assumption.
Qed.

Lemma calculateSimpleDVOL_spec (priceData : list PriceData) (windowSize : Z)
    (af : num) :
  Forall (fun d => valid_price (price d) = true) priceData ->
  2 <= windowSize ->
  windowSize + 2 <= len priceData ->
  exists returns volatilities,
    calculateLogReturns (map price priceData) = Ok returns /\
    len returns = len priceData - 1 /\
    rollingVolatilities returns windowSize = Ok volatilities /\
    len volatilities = len returns - windowSize + 1 /\
    calculateSimpleDVOL priceData windowSize af
    = Ok ((fold_left add volatilities (Fin 0) / of_Z (len volatilities)
           * Math_sqrt af * Fin 100)%num,
          Math_max (Fin 0)
            (Math_min (Fin 100)
               (Fin 100
                - sample_stdev volatilities
                  / (fold_left add volatilities (Fin 0) / of_Z (len volatilities))
                  * Fin 100))).
Proof.
  intros Hvalid Hw Hlen.
  destruct (calculateLogReturns_ok (map price priceData)) as [returns [Hret [Hrl _]]].
  { autorewrite with len; lia. }
  { apply valid_prices_positive; assumption. }
  rewrite len_map in Hrl.
  destruct (rollingVolatilities_spec returns windowSize) as [vols [Hrun [Hvl _]]];
    [lia |].
  exists returns, vols; repeat split; try assumption.
  unfold calculateSimpleDVOL; rewrite Hret; cbn [bind].
  destruct (Z.ltb_spec (len returns) windowSize); [lia |].
  rewrite Hrun; cbn [bind].
  rewrite calculateMean_ok by lia; cbn [bind].
  rewrite calculateStandardDeviation_ok by lia; reflexivity.
Qed.

(** With exactly [windowSize] returns there is a single window, and the
    standard deviation of the single volatility cannot be taken. *)
Lemma calculateSimpleDVOL_single_window (priceData : list PriceData)
    (windowSize : Z) (af : num) :
  Forall (fun d => valid_price (price d) = true) priceData ->
  2 <= windowSize ->
  len priceData = windowSize + 1 ->
  calculateSimpleDVOL priceData windowSize af = Throw NeedTwoValuesForVariance.
Proof.
  intros Hvalid Hw Hlen.
  destruct (calculateLogReturns_ok (map price priceData)) as [returns [Hret [Hrl _]]].
  { autorewrite with len; lia. }
  { apply valid_prices_positive; assumption. }
  rewrite len_map in Hrl.
  destruct (rollingVolatilities_spec returns windowSize) as [vols [Hrun [Hvl _]]];
    [lia |].
  unfold calculateSimpleDVOL; rewrite Hret; cbn [bind].
  destruct (Z.ltb_spec (len returns) windowSize); [lia |].
  rewrite Hrun; cbn [bind].
  rewrite calculateMean_ok by lia; cbn [bind].
  unfold calculateStandardDeviation.
  rewrite calculateVariance_short by lia; reflexivity.
Qed.

Lemma calculateSimpleDVOL_too_short (priceData : list PriceData)
    (windowSize : Z) (af : num) :
  Forall (fun d => valid_price (price d) = true) priceData ->
  2 <= len priceData ->
  len priceData - 1 < windowSize ->
  calculateSimpleDVOL priceData windowSize af
  = Throw (InsufficientDataForWindow windowSize).
Proof.
  intros Hvalid H2 Hlen.
  destruct (calculateLogReturns_ok (map price priceData)) as [returns [Hret [Hrl _]]].
  { autorewrite with len; lia. }
  { apply valid_prices_positive; assumption. }
  rewrite len_map in Hrl.
  unfold calculateSimpleDVOL; rewrite Hret; cbn [bind].
  destruct (Z.ltb_spec (len returns) windowSize); [reflexivity | lia].
Qed.

Lemma sample_stdev_zeros (m : nat) :
  (2 <= m)%nat -> sample_stdev (repeat (Fin 0) m) = Fin 0.
Proof.
  intros H.
  assert (E : Ok (sample_stdev (repeat (Fin 0) m)) = Ok (Fin 0)).
  { rewrite <- calculateStandardDeviation_ok by (autorewrite with len; lia).
    apply calculateStandardDeviation_zeros; assumption. }
  injection E as E; exact E.
Qed.

Lemma rollingVolatilities_zeros (m : nat) (windowSize : Z) :
  2 <= windowSize <= Z.of_nat m ->
  rollingVolatilities (repeat (Fin 0) m) windowSize
  = Ok (repeat (Fin 0) (Z.to_nat (Z.of_nat m - windowSize + 1))).
Proof.
  intros Hw.
  destruct (rollingVolatilities_spec (repeat (Fin 0) m) windowSize)
    as [vols [Hrun [Hlen Hget]]]; [rewrite len_repeat; lia |].
  rewrite len_repeat in Hlen, Hget.
  rewrite Hrun; f_equal.
  replace (Z.to_nat (Z.of_nat m - windowSize + 1)) with (length vols)
    by (unfold len in Hlen; lia).
  apply all_get_repeat; intros i Hi.
  replace i with (i + (windowSize - 1) - (windowSize - 1)) by lia.
  destruct (Hget (i + (windowSize - 1))) as [_ ->]; [lia |].
  rewrite slice_repeat by lia.
  apply sample_stdev_zeros; lia.
Qed.

Lemma calculateSimpleDVOL_constant (priceData : list PriceData) (windowSize : Z)
    (x f : R) :
  (0 < x)%R -> (0 <= f)%R ->
  Forall (fun d => price d = Fin x) priceData ->
  2 <= windowSize ->
  windowSize + 2 <= len priceData ->
  calculateSimpleDVOL priceData windowSize (Fin f) = Ok (Fin 0, NaN).
Proof.
  intros Hx Hf Hconst Hw Hlen.
  destruct (calculateSimpleDVOL_spec priceData windowSize (Fin f)
              (constant_valid x priceData Hx Hconst) Hw Hlen)
    as [returns [vols [Hret [_ [Hrun [Hvl Hcode]]]]]].
  rewrite (constant_prices x priceData Hconst) in Hret.
  rewrite calculateLogReturns_constant in Hret by (unfold len in Hlen; lia || assumption).
  injection Hret as <-.
  rewrite rollingVolatilities_zeros in Hrun by (unfold len in Hlen; lia).
  injection Hrun as <-.
  rewrite Hcode, len_repeat, fold_add_zeros, Fin_0_over by (unfold len in Hlen; lia).
  rewrite sample_stdev_zeros by (unfold len in Hlen; lia).
  rewrite zero_over_zero, sqrt_Fin by assumption.
  simpl; repeat f_equal; ring.
Qed.

(** ** The GARCH(1,1) estimator on a series of constant price *)

Lemma calculateGARCHConfidence_total (standardizedResiduals variances : list num) :
  2 <= len standardizedResiduals ->
  exists c, calculateGARCHConfidence standardizedResiduals variances = Ok c.
Proof.
  intros H; unfold calculateGARCHConfidence.
  destruct (Z.eqb_spec (len standardizedResiduals) 0); [lia |].
  rewrite calculateMean_ok by lia; cbn [bind].
  rewrite calculateStandardDeviation_ok by lia; cbn [bind].
  destruct (calculateStability_total variances) as [c ->].
  eexists; reflexivity.
Qed.

Lemma garchVariances_zeros (m : nat) (o a b : R) :
  (0 < o)%R -> (0 <= a)%R -> (0 <= b)%R -> (2 <= m)%nat ->
  exists y variances standardizedResiduals,
    garchVariances (repeat (Fin 0) m)
      {| omega := Fin o; alpha := Fin a; beta := Fin b |} (Fin 0)
    = Ok (Fin y, variances, standardizedResiduals) /\
    (0 < y)%R /\
    len standardizedResiduals = Z.of_nat m - 1.
Proof.
  intros Ho Ha Hb Hm; unfold garchVariances; rewrite len_repeat.
  destruct (for_loop_inv
              (fun i (st : num * list num * list num) =>
                 let '(v, _, res) := st in
                 (exists y, v = Fin y /\ (0 <= y)%R /\ (1 < i -> (0 < y)%R)) /\
                 len res = i - 1)
              (fun i '(variance, variances, standardizedResiduals) =>
                 let previousReturn := get (repeat (Fin 0) m) (i - 1) in
                 let previousVariance := variance in
                 let variance :=
                   (omega {| omega := Fin o; alpha := Fin a; beta := Fin b |}
                    + alpha {| omega := Fin o; alpha := Fin a; beta := Fin b |}
                      * Math_pow previousReturn 2
                    + beta {| omega := Fin o; alpha := Fin a; beta := Fin b |}
                      * previousVariance)%num in
                 let standardizedResidual :=
                   (get (repeat (Fin 0) m) i / Math_sqrt variance)%num in
                 Ok (variance, variances ++ [variance],
                     standardizedResiduals ++ [standardizedResidual]))
              1 (Z.of_nat m) (Fin 0, [Fin 0], []))
    as [[[v vs] res] [Hrun [[y [Hv [Hy Hpos]]] Hres]]].
  - lia.
  - split; [exists 0%R; repeat split; [lra | lia] | reflexivity].
  - intros j [[v vs] res] Hj [[y [-> [Hy _]]] Hres].
    eexists; split; [reflexivity |].
    rewrite get_repeat by lia; simpl.
    split; [| rewrite len_snoc; lia].
    eexists; split; [reflexivity |].
    split; [nra | intros _; nra].
  - subst v; exists y, vs, res; repeat split; try assumption.
    apply Hpos; lia.
Qed.

Lemma calculateGARCHDVOL_constant (priceData : list PriceData) (x o a b f : R) :
  (0 < x)%R ->
  (0 < o)%R -> (0 <= a)%R -> (0 <= b)%R -> (a + b < 1)%R -> (0 < f)%R ->
  Forall (fun d => price d = Fin x) priceData ->
  11 <= len priceData ->
  exists d conf,
    calculateGARCHDVOL priceData
      {| omega := Fin o; alpha := Fin a; beta := Fin b |} (Fin f)
    = Ok (Fin d, conf) /\ (0 < d)%R.
Proof.
  intros Hx Ho Ha Hb Hab Hf Hconst Hlen.
  unfold calculateGARCHDVOL, ge, lt; simpl.
  rewrite (Rleb_false o 0), (Rleb_true 0 a), (Rleb_true 0 b), (Rleb_false 1 (a + b))
    by lra; simpl.
  rewrite (constant_prices x priceData Hconst).
  rewrite calculateLogReturns_constant by (unfold len in Hlen; lia || assumption).
  cbn [bind]; rewrite len_repeat.
  destruct (Z.ltb_spec (Z.of_nat (length priceData - 1)) 10);
    [unfold len in Hlen; lia |].
  rewrite calculateVariance_zeros by lia; cbn [bind].
  destruct (garchVariances_zeros (length priceData - 1) o a b Ho Ha Hb ltac:(lia))
    as [y [vs [res [Hrun [Hy Hres]]]]].
  rewrite Hrun; cbn [bind].
  destruct (calculateGARCHConfidence_total res vs ltac:(lia)) as [conf ->].
  cbn [bind].
  exists (sqrt (y * f) * 100)%R, conf; split.
  - simpl mul at 2; rewrite sqrt_Fin by nra; reflexivity.
  - assert (0 < sqrt (y * f))%R by (apply sqrt_lt_R0; nra); lra.
Qed.

(** ** Volatility metrics on a series of constant price *)

Lemma getPeriodsPerYear_positive (period : string) (dataPoints : Z) :
  1 <= dataPoints ->
  exists q, getPeriodsPerYear period dataPoints = Fin q /\ (0 < q)%R.
Proof.
  intros H; unfold getPeriodsPerYear.
  destruct (String.eqb period "1d"); [eexists; split; [reflexivity | lra] |].
  destruct (String.eqb period "30d"); [eexists; split; [reflexivity | lra] |].
  destruct (String.eqb period "365d"); [eexists; split; [reflexivity | lra] |].
  assert (1 <= IZR dataPoints)%R by (apply IZR_le; assumption).
  unfold of_Z; simpl.
  destruct (Rleb 365 (IZR dataPoints * 12)); eexists; (split; [reflexivity | lra]).
Qed.

Lemma calculateMetrics_constant (priceData : list PriceData) (period : string) (x : R) :
  (0 < x)%R ->
  Forall (fun d => price d = Fin x) priceData ->
  3 <= len priceData ->
  calculateMetrics priceData period
  = Ok {| volatility := Fin 0; variance := Fin 0; annualizedVolatility := Fin 0 |}.
Proof.
  intros Hx Hconst Hlen; unfold calculateMetrics.
  destruct (Z.ltb_spec (len priceData) 2); [lia |].
  rewrite (constant_prices x priceData Hconst).
  rewrite calculateLogReturns_constant by (unfold len in Hlen; lia || assumption).
  cbn [bind].
  rewrite calculateVariance_zeros by (unfold len in Hlen; lia).
  cbn [bind]; rewrite sqrt_Fin_0, len_repeat.
  destruct (getPeriodsPerYear_positive period (Z.of_nat (length priceData - 1)))
    as [q [-> Hq]]; [unfold len in Hlen; lia |].
  unfold annualizeVolatility; simpl le.
  rewrite Rleb_false by assumption.
  rewrite sqrt_Fin by lra; simpl.
  f_equal; f_equal; f_equal; ring.
Qed.

(** ** The entry point on a series of constant price *)

Lemma constant_series_const (x : R) (n : nat) :
  Forall (fun d => price d = Fin x) (constant_series (Fin x) n).
Proof.
  unfold constant_series; apply Forall_forall; intros d Hd.
  apply in_map_iff in Hd; destruct Hd as [k [<- _]]; reflexivity.
Qed.

Lemma len_constant_series (p : num) (n : nat) :
  len (constant_series p n) = Z.of_nat n.
Proof. unfold len, constant_series; rewrite length_map, length_seq; reflexivity. Qed.

#[global] Hint Rewrite len_constant_series : len.

(** The side conditions of the lemmas above, on a [constant_series]. *)
Ltac constant_series_facts :=
  first [ lra
        | apply constant_series_const
        | autorewrite with len; lia ].

Lemma calculateDVOL_ewma_constant (now : Z) (priceData : list PriceData) (x : R) :
  (0 < x)%R ->
  Forall (fun d => price d = Fin x) priceData ->
  5 <= len priceData ->
  calculateDVOL now priceData ewma no_options
  = Ok {| dvol := Fin 0;
          dvolIndex := calculateDVOLIndex (Fin 0);
          confidence := NaN;
          method := ewma;
          dataPoints := len priceData;
          calculatedAt := now |}.
Proof.
  intros Hx Hconst Hlen; unfold calculateDVOL.
  rewrite validateInput_ok by (simpl; eauto using constant_valid); cbn [bind].
  simpl ewmaLambda; simpl annualizationFactor; cbv iota.
  unfold DEFAULT_EWMA_LAMBDA, ANNUALIZATION_FACTOR.
  rewrite (calculateEWMADVOL_constant priceData x (94 / 100) 365)
    by (lra || lia || assumption).
  reflexivity.
Qed.

Lemma calculateDVOL_simple_constant (now : Z) (priceData : list PriceData) (x : R) :
  (0 < x)%R ->
  Forall (fun d => price d = Fin x) priceData ->
  32 <= len priceData ->
  calculateDVOL now priceData simple no_options
  = Ok {| dvol := Fin 0;
          dvolIndex := calculateDVOLIndex (Fin 0);
          confidence := NaN;
          method := simple;
          dataPoints := len priceData;
          calculatedAt := now |}.
Proof.
  intros Hx Hconst Hlen; unfold calculateDVOL.
  rewrite validateInput_ok by (simpl; eauto using constant_valid; lia); cbn [bind].
  simpl windowSize; simpl annualizationFactor; cbv iota.
  unfold DEFAULT_WINDOW_SIZE, ANNUALIZATION_FACTOR.
  rewrite (calculateSimpleDVOL_constant priceData 30 x 365)
    by (lra || lia || assumption).
  reflexivity.
Qed.

Lemma calculateDVOL_garch_constant (now : Z) (priceData : list PriceData) (x : R) :
  (0 < x)%R ->
  Forall (fun d => price d = Fin x) priceData ->
  11 <= len priceData ->
  exists r d,
    calculateDVOL now priceData garch no_options = Ok r /\
    dvol r = Fin d /\ (0 < d)%R.
Proof.
  intros Hx Hconst Hlen; unfold calculateDVOL.
  rewrite validateInput_ok by (simpl; eauto using constant_valid; lia); cbn [bind].
  simpl garchParams; simpl annualizationFactor; cbv iota.
  unfold DEFAULT_GARCH_PARAMS, ANNUALIZATION_FACTOR.
  destruct (calculateGARCHDVOL_constant priceData x (1 / 1000000) (1 / 10) (85 / 100) 365)
    as [d [conf [-> Hd]]]; try lra; try assumption.
  cbn [bind]; eexists; exists d; repeat split; assumption.
Qed.

Lemma Math_min_Fin (a b : R) :
  Math_min (Fin a) (Fin b) = Fin (if Rleb a b then a else b).
Proof. unfold Math_min, le; destruct (Rleb a b); reflexivity. Qed.

Lemma Math_max_Fin (a b : R) :
  Math_max (Fin a) (Fin b) = Fin (if Rleb a b then b else a).
Proof. unfold Math_max, le; destruct (Rleb a b); reflexivity. Qed.

Lemma calculateDVOLIndex_Fin (d : R) :
  calculateDVOLIndex (Fin d)
  = Fin (if Rleb 0 (if Rleb 100 ((d + - 10) / (200 + - 10) * 100)
                    then 100 else (d + - 10) / (200 + - 10) * 100)
         then (if Rleb 100 ((d + - 10) / (200 + - 10) * 100)
               then 100 else (d + - 10) / (200 + - 10) * 100)
         else 0)%R.
Proof.
  unfold calculateDVOLIndex, sub; cbn [neg add].
  rewrite div_Fin by lra; cbn [mul].
  rewrite Math_min_Fin, Math_max_Fin; reflexivity.
Qed.

Lemma calculateDVOLIndex_zero : calculateDVOLIndex (Fin 0) = Fin 0.
Proof. rewrite calculateDVOLIndex_Fin; decide_R; reflexivity. Qed.

(** The index of a dvol that is a number lies in [[0, 100]]. *)
Lemma calculateDVOLIndex_in_range (d : R) :
  in_0_100 (calculateDVOLIndex (Fin d)) = true.
Proof.
  rewrite calculateDVOLIndex_Fin; unfold in_0_100; cbn [le].
  set (e := ((d + - 10) / (200 + - 10) * 100)%R).
  destruct (Rle_dec 100 e) as [H | H].
  - rewrite (Rleb_true 100 e H); decide_R; reflexivity.
  - rewrite (Rleb_false 100 e) by lra.
    destruct (Rle_dec 0 e) as [H' | H'].
    + rewrite (Rleb_true 0 e H'), (Rleb_true 0 e H'), (Rleb_true e 100) by lra.
      reflexivity.
    + rewrite (Rleb_false 0 e) by lra; decide_R; reflexivity.
Qed.

(** ** Constant price: C1 *)

(** C1.  For every series of constant positive price: the log
    returns are all 0; their sample variance is 0 and the three volatility
    metrics are 0; with the default options the simple method (from 32
    points on) and the EWMA method (from 5 points on) return a [dvol] of 0;
    the GARCH method (from 11 points on) returns a [dvol] that is strictly
    positive, every conditional variance after the first being at least
    [omega > 0]. *)
Theorem C1_constant_price_dvol
    (now : Z) (priceData : list PriceData) (period : string) (x : R) :
  (0 < x)%R ->
  Forall (fun d => price d = Fin x) priceData ->
  (2 <= len priceData ->
   calculateLogReturns (map price priceData)
   = Ok (repeat (Fin 0) (length priceData - 1)))
  /\
  (3 <= len priceData ->
   calculateVariance (repeat (Fin 0) (length priceData - 1)) = Ok (Fin 0) /\
   calculateMetrics priceData period
   = Ok {| volatility := Fin 0; variance := Fin 0; annualizedVolatility := Fin 0 |})
  /\
  (32 <= len priceData ->
   exists r, calculateDVOL now priceData simple no_options = Ok r /\ dvol r = Fin 0)
  /\
  (5 <= len priceData ->
   exists r, calculateDVOL now priceData ewma no_options = Ok r /\ dvol r = Fin 0)
  /\
  (11 <= len priceData ->
   exists r d, calculateDVOL now priceData garch no_options = Ok r /\
               dvol r = Fin d /\ (0 < d)%R).
Proof.
  intros Hx Hconst; split; [| split; [| split; [| split]]].
  - intros H; rewrite (constant_prices x priceData Hconst).
    apply calculateLogReturns_constant; [assumption | unfold len in H; lia].
  - intros H; split.
    + apply calculateVariance_zeros; unfold len in H; lia.
    + apply (calculateMetrics_constant priceData period x); assumption.
  - intros H; eexists; split;
      [apply (calculateDVOL_simple_constant now priceData x); assumption
      | reflexivity].
  - intros H; eexists; split;
      [apply (calculateDVOL_ewma_constant now priceData x); assumption
      | reflexivity].
  - intros H; apply (calculateDVOL_garch_constant now priceData x); assumption.
Qed.

Lemma C1_witness :
  calculateLogReturns (map price (constant_series (Fin 100) 32))
  = Ok (repeat (Fin 0) (length (constant_series (Fin 100) 32) - 1))
  /\
  (calculateVariance (repeat (Fin 0) (length (constant_series (Fin 100) 32) - 1))
   = Ok (Fin 0) /\
   calculateMetrics (constant_series (Fin 100) 32) "30d"
   = Ok {| volatility := Fin 0; variance := Fin 0; annualizedVolatility := Fin 0 |})
  /\
  (exists r, calculateDVOL 0 (constant_series (Fin 100) 32) simple no_options = Ok r
             /\ dvol r = Fin 0)
  /\
  (exists r, calculateDVOL 0 (constant_series (Fin 100) 32) ewma no_options = Ok r
             /\ dvol r = Fin 0)
  /\
  (exists r d, calculateDVOL 0 (constant_series (Fin 100) 32) garch no_options = Ok r
               /\ dvol r = Fin d /\ (0 < d)%R).
Proof.
  destruct (C1_constant_price_dvol 0 (constant_series (Fin 100) 32) "30d" 100
              ltac:(lra) (constant_series_const 100 32))
    as [A [B [C [D E]]]].
  rewrite len_constant_series in A, B, C, D, E.
  split; [apply A; lia |].
  split; [apply B; lia |].
  split; [apply C; lia |].
  split; [apply D; lia | apply E; lia].
Defined.

(** C1 does not extend to the GARCH method: on eleven points of constant
    price 100, with the default options, the returned [dvol] is not 0. *)
Lemma C1_counterexample :
  exists r,
    calculateDVOL 0 (constant_series (Fin 100) 11) garch no_options = Ok r /\
    dvol r <> Fin 0.
Proof.
  destruct (calculateDVOL_garch_constant 0 (constant_series (Fin 100) 11) 100)
    as [r [d [Hr [Hd Hpos]]]]; try constant_series_facts.
  exists r; split; [assumption |].
  rewrite Hd; intros E; injection E as E; lra.
Qed.

(** ** Zero-mean denominators: C2 and C3 *)

(** C2.  The stability score has no guard for a zero mean: the ratio
    [std / mean] is [0 / 0], which is [NaN], and [NaN] comes out of
    [Math.max(0, Math.min(100, .))] as the reported confidence, for the
    EWMA method (five points of constant price) and for the simple method
    (thirty-two points of constant price) alike. *)
Theorem C2_zero_mean_confidence_is_NaN :
  calculateStability [Fin 0; Fin 0] = Ok NaN /\
  (exists r,
     calculateDVOL 0 (constant_series (Fin 100) 5) ewma no_options = Ok r /\
     confidence r = NaN) /\
  (exists r,
     calculateDVOL 0 (constant_series (Fin 100) 32) simple no_options = Ok r /\
     confidence r = NaN).
Proof.
  split; [apply (calculateStability_zeros 2); lia |].
  split; eexists; split; try reflexivity.
  - apply (calculateDVOL_ewma_constant 0 _ 100); constant_series_facts.
  - reflexivity.
  - apply (calculateDVOL_simple_constant 0 _ 100); constant_series_facts.
  - reflexivity.
Qed.

(** C3.  On six points of constant price 50 the EWMA method returns
    successfully, with a [dvolIndex] inside [[0, 100]] and a confidence
    that is [NaN], hence outside [[0, 100]]. *)
Theorem C3_confidence_outside_0_100 :
  exists r,
    calculateDVOL 0 (constant_series (Fin 50) 6) ewma no_options = Ok r /\
    in_0_100 (dvolIndex r) = true /\
    confidence r = NaN /\
    in_0_100 (confidence r) = false.
Proof.
  eexists; split.
  - apply (calculateDVOL_ewma_constant 0 _ 50); constant_series_facts.
  - split; [apply calculateDVOLIndex_in_range |].
    split; reflexivity.
Qed.

(** ** Prices that are not finite: C5 *)

(** C5.  [calculateLogReturns] compares each price with 0 only, so a
    price that is [NaN] or [+Infinity] is not rejected, and
    [calculateMetrics], which consumes it, returns metrics that are all
    [NaN]; [validateInput], on the DVOL path, rejects the same series. *)
Theorem C5_non_finite_prices_not_rejected :
  calculateLogReturns [NaN; Fin 1] = Ok [NaN] /\
  calculateLogReturns [PInf; Fin 1] = Ok [NInf] /\
  calculateMetrics
    [ {| timestamp := 0; price := NaN |};
      {| timestamp := 1; price := Fin 1 |};
      {| timestamp := 2; price := Fin 1 |} ] "30d"
  = Ok {| volatility := NaN; variance := NaN; annualizedVolatility := NaN |} /\
  validateInput
    [ {| timestamp := 0; price := NaN |};
      {| timestamp := 1; price := Fin 1 |};
      {| timestamp := 2; price := Fin 1 |} ] simple
  = Throw PricesNotPositiveFinite.
Proof.
  split; [| split; [| split]].
  - unfold calculateLogReturns, for_loop; simpl; decide_R; reflexivity.
  - unfold calculateLogReturns, for_loop; simpl; decide_R; simpl; decide_R.
    reflexivity.
  - unfold calculateMetrics, calculateLogReturns, for_loop; simpl; decide_R; simpl.
    decide_R; simpl.
    unfold annualizeVolatility, getPeriodsPerYear; simpl; decide_R; reflexivity.
  - reflexivity.
Qed.

(** ** A single rolling window: C7 *)

(** C7.  With as many returns as the window is wide there is one window
    and one volatility; the mean is taken and then the standard deviation
    of that single value throws: the simple method fails although
    [len(returns) >= windowSize].  So it is for three points and
    [windowSize = 2], and for thirty-one points and the default window of
    30. *)
Theorem C7_single_window_throws :
  calculateDVOL 0
    [ {| timestamp := 0; price := Fin 100 |};
      {| timestamp := 1; price := Fin 110 |};
      {| timestamp := 2; price := Fin 121 |} ] simple
    {| windowSize := Some 2; ewmaLambda := None; garchParams := None;
       annualizationFactor := None |}
  = Throw NeedTwoValuesForVariance /\
  calculateDVOL 0 (constant_series (Fin 100) 31) simple no_options
  = Throw NeedTwoValuesForVariance /\
  kind_of NeedTwoValuesForVariance = InsufficientData.
Proof.
  assert (Hv : forall x, (0 < x)%R -> valid_price (Fin x) = true)
    by (intros x Hx; apply valid_price_Fin; exists x; split; [reflexivity | exact Hx]).
  split; [| split; [| reflexivity]].
  - unfold calculateDVOL.
    rewrite validateInput_ok
      by (first [ unfold len; simpl; lia | repeat constructor; apply Hv; lra ]).
    cbn [bind windowSize annualizationFactor].
    rewrite calculateSimpleDVOL_single_window;
      [reflexivity | repeat constructor; apply Hv; lra | lia | reflexivity].
  - unfold calculateDVOL.
    rewrite validateInput_ok
      by (first [ rewrite len_constant_series; lia
                | apply (constant_valid 100); [lra | apply constant_series_const] ]).
    cbn [bind windowSize annualizationFactor no_options].
    rewrite calculateSimpleDVOL_single_window;
      [reflexivity
      | apply (constant_valid 100); [lra | apply constant_series_const]
      | unfold DEFAULT_WINDOW_SIZE; lia
      | rewrite len_constant_series; reflexivity].
Qed.

(** * Further properties of the calculators

    The arithmetic of the model is exact on finite numbers, that of the
    program is binary64.  The statements of this part are those that do
    not depend on the difference: they speak of lengths, of which error is
    thrown, of comparisons and clamps, and of values that the same
    operations in the same order produce.  Where a quantity of the program
    can overflow, the statement allows an infinity, or bounds the inputs. *)

(** ** Arrays of finite numbers *)

Lemma fold_add_Fin (xs : list R) (a : R) :
  fold_left add (map Fin xs) (Fin a) = Fin (a + Rsum xs).
Proof.
  revert a; induction xs as [| x xs IH]; intros a; simpl.
  - f_equal; ring.
  - rewrite IH; f_equal; ring.
Qed.

Lemma IZR_len_neq_0 {A : Type} (l : list A) : len l <> 0 -> IZR (len l) <> 0%R.
Proof. intros H; apply not_0_IZR; exact H. Qed.

Lemma calculateMean_Fin (xs : list R) :
  len xs <> 0 -> calculateMean (map Fin xs) = Ok (Fin (Rmean xs)).
Proof.
  intros H; rewrite calculateMean_ok by (rewrite len_map; exact H).
  rewrite fold_add_Fin, len_map; unfold of_Z.
  rewrite div_Fin by (apply IZR_len_neq_0; exact H).
  unfold Rmean; replace (0 + Rsum xs)%R with (Rsum xs) by ring; reflexivity.
Qed.

Lemma squared_deviations_Fin (xs : list R) (m : R) :
  map (fun v => Math_pow (v - Fin m) 2) (map Fin xs)
  = map Fin (map (fun x => (x - m) * (x - m))%R xs).
Proof.
  rewrite !map_map; apply map_ext; intros x; simpl; f_equal; ring.
Qed.

Lemma calculateVariance_Fin (xs : list R) :
  2 <= len xs -> calculateVariance (map Fin xs) = Ok (Fin (Rvariance xs)).
Proof.
  intros H; unfold calculateVariance; rewrite len_map.
  destruct (Z.ltb_spec (len xs) 2); [lia |].
  rewrite calculateMean_Fin by lia; cbn [bind].
  rewrite squared_deviations_Fin, fold_add_Fin; unfold of_Z.
  rewrite div_Fin by (apply not_0_IZR; lia).
  unfold Rvariance.
  replace (0 + Rsum (map (fun x => (x - Rmean xs) * (x - Rmean xs)) xs))%R
    with (Rsum (map (fun x => (x - Rmean xs) * (x - Rmean xs)) xs))%R by ring.
  reflexivity.
Qed.

Lemma Rsum_squares_nonneg (xs : list R) (m : R) :
  (0 <= Rsum (map (fun x => (x - m) * (x - m)) xs))%R.
Proof.
  unfold Rsum; induction xs as [| x xs IH]; simpl; [lra |].
  pose proof (Rle_0_sqr (x - m)) as Hs; unfold Rsqr in Hs; lra.
Qed.

Lemma Rdiv_nonneg (a b : R) : (0 <= a)%R -> (0 < b)%R -> (0 <= a / b)%R.
Proof.
  intros Ha Hb; unfold Rdiv; apply Rmult_le_pos; [exact Ha |].
  left; apply Rinv_0_lt_compat; exact Hb.
Qed.

Lemma Rvariance_nonneg (xs : list R) : 2 <= len xs -> (0 <= Rvariance xs)%R.
Proof.
  intros H; unfold Rvariance.
  assert (0 < IZR (len xs - 1))%R by (apply IZR_lt; lia).
  apply Rdiv_nonneg; [apply Rsum_squares_nonneg | assumption].
Qed.

Lemma calculateStandardDeviation_Fin (xs : list R) :
  2 <= len xs ->
  calculateStandardDeviation (map Fin xs) = Ok (Fin (sqrt (Rvariance xs))).
Proof.
  intros H; unfold calculateStandardDeviation.
  rewrite calculateVariance_Fin by exact H; cbn [bind].
  rewrite sqrt_Fin by (apply Rvariance_nonneg; exact H); reflexivity.
Qed.

(** X1.  On at least two finite values the sample variance is never [NaN]
    and never negative, and neither is the standard deviation, its square
    root. *)
Theorem variance_not_negative (xs : list R) :
  2 <= len xs ->
  exists v,
    calculateVariance (map Fin xs) = Ok v /\
    (Fin 0 <=? v)%num = true /\
    calculateStandardDeviation (map Fin xs) = Ok (Math_sqrt v) /\
    (Fin 0 <=? Math_sqrt v)%num = true.
Proof.
  intros H; exists (Fin (Rvariance xs)).
  pose proof (Rvariance_nonneg xs H) as Hv.
  split; [apply calculateVariance_Fin; exact H |].
  split; [cbn [le]; apply Rleb_true; exact Hv |].
  rewrite sqrt_Fin by exact Hv.
  split; [apply calculateStandardDeviation_Fin; exact H |].
  cbn [le]; apply Rleb_true, sqrt_pos.
Qed.

Lemma variance_not_negative_witness :
  exists v,
    calculateVariance (map Fin [1; 2; 4]%R) = Ok v /\
    (Fin 0 <=? v)%num = true /\
    calculateStandardDeviation (map Fin [1; 2; 4]%R) = Ok (Math_sqrt v) /\
    (Fin 0 <=? Math_sqrt v)%num = true.
Proof.
  apply (variance_not_negative [1; 2; 4]%R); unfold len; simpl; lia.
Defined.

(** ** When the log returns are refused *)

Section LoopThrows.

Context {St : Type}.
Variable body : Z -> St -> result St.
Variable e : error.

(** A loop whose iterations throw nothing but [e] throws [e] as soon as
    one iteration throws whatever the state. *)
Lemma for_loop_from_throws :
  forall (fuel : nat) (i : Z) (s : St),
    (forall j t, i <= j < i + Z.of_nat fuel ->
                 body j t = Throw e \/ exists t', body j t = Ok t') ->
    (exists j, i <= j < i + Z.of_nat fuel /\ forall t, body j t = Throw e) ->
    for_loop_from fuel i body s = Throw e.
Proof.
  induction fuel as [| fuel IH]; intros i s Hbody [j [Hj Hthrow]]; [lia |].
  simpl.
  destruct (Hbody i s ltac:(lia)) as [-> | [t' Ht']]; [reflexivity |].
  rewrite Ht'; apply IH.
  - intros k t Hk; apply Hbody; lia.
  - exists j; split; [| exact Hthrow].
    destruct (Z.eq_dec j i) as [-> | Hne]; [| lia].
    rewrite Hthrow in Ht'; discriminate.
Qed.

Lemma for_loop_throws (lo hi : Z) (s : St) :
  (forall j t, lo <= j < hi -> body j t = Throw e \/ exists t', body j t = Ok t') ->
  (exists j, lo <= j < hi /\ forall t, body j t = Throw e) ->
  for_loop lo hi body s = Throw e.
Proof.
  intros Hbody [j [Hj Hthrow]]; unfold for_loop; apply for_loop_from_throws.
  - intros k t Hk; apply Hbody; lia.
  - exists j; split; [lia | exact Hthrow].
Qed.

End LoopThrows.

Lemma calculateLogReturns_no_nonpositive (prices : list num) :
  2 <= len prices ->
  Forall (fun p => (p <=? Fin 0)%num = false) prices ->
  exists returns,
    calculateLogReturns prices = Ok returns /\ len returns = len prices - 1.
Proof.
  intros Hlen Hpos; unfold calculateLogReturns.
  destruct (Z.ltb_spec (len prices) 2); [lia |].
  apply (for_loop_inv (fun i returns => len returns = i - 1)).
  - lia.
  - reflexivity.
  - intros j t Hj Hl.
    rewrite (get_Forall (fun p => (p <=? Fin 0)%num = false) prices (j - 1) Hpos),
            (get_Forall (fun p => (p <=? Fin 0)%num = false) prices j Hpos) by lia.
    simpl; eexists; split; [reflexivity | autorewrite with len; lia].
Qed.

Lemma calculateLogReturns_nonpositive (prices : list num) (k : Z) :
  2 <= len prices ->
  0 <= k < len prices ->
  (get prices k <=? Fin 0)%num = true ->
  calculateLogReturns prices = Throw PricesMustBePositive.
Proof.
  intros Hlen Hk Hle; unfold calculateLogReturns.
  destruct (Z.ltb_spec (len prices) 2); [lia |].
  apply for_loop_throws.
  - intros j t Hj.
    destruct ((get prices (j - 1) <=? Fin 0)%num || (get prices j <=? Fin 0)%num);
      [left; reflexivity | right; eexists; reflexivity].
  - destruct (Z.eq_dec k 0) as [-> | Hne].
    + exists 1; split; [lia |]; intros t.
      change (1 - 1) with 0; rewrite Hle; reflexivity.
    + exists k; split; [lia |]; intros t.
      rewrite Hle, orb_true_r; reflexivity.
Qed.

(** X3.  On two prices or more, [calculateLogReturns] throws 'Prices must be
    positive' exactly when some price, at whatever position, compares
    [<= 0]; otherwise it returns, with one return fewer than prices. *)
Theorem calculateLogReturns_rejects_exactly_nonpositive (prices : list num) :
  2 <= len prices ->
  if existsb (fun p => (p <=? Fin 0)%num) prices
  then calculateLogReturns prices = Throw PricesMustBePositive
  else exists returns,
         calculateLogReturns prices = Ok returns /\
         len returns = len prices - 1.
Proof.
  intros Hlen.
  destruct (existsb (fun p => (p <=? Fin 0)%num) prices) eqn:E.
  - apply existsb_exists in E; destruct E as [p [Hin Hp]].
    destruct (In_nth prices p NaN Hin) as [k [Hk Hnth]].
    apply (calculateLogReturns_nonpositive prices (Z.of_nat k)).
    + exact Hlen.
    + unfold len; lia.
    + unfold get; destruct (Z.ltb_spec (Z.of_nat k) 0); [lia |].
      rewrite Nat2Z.id, Hnth; exact Hp.
  - apply calculateLogReturns_no_nonpositive; [exact Hlen |].
    apply Forall_forall; intros p Hin.
    destruct (p <=? Fin 0)%num eqn:Hp; [| reflexivity].
    assert (existsb (fun p => (p <=? Fin 0)%num) prices = true)
      by (apply existsb_exists; exists p; split; assumption).
    congruence.
Qed.

Lemma calculateLogReturns_rejects_exactly_nonpositive_witness :
  calculateLogReturns [Fin 100; Fin 0; Fin 120] = Throw PricesMustBePositive.
Proof.
  assert (E : existsb (fun p => (p <=? Fin 0)%num) [Fin 100; Fin 0; Fin 120] = true).
  { simpl; rewrite (Rleb_false 100 0), (Rleb_true 0 0) by lra; reflexivity. }
  pose proof (calculateLogReturns_rejects_exactly_nonpositive
                [Fin 100; Fin 0; Fin 120] ltac:(unfold len; simpl; lia)) as H.
  rewrite E in H; exact H.
Defined.

(** ** What [validateInput] accepts *)

Lemma valid_price_negb_invalid (p : num) :
  valid_price p = negb (negb (Number_isFinite p) || (p <=? Fin 0)%num).
Proof.
  unfold valid_price, lt; destruct p; simpl; try reflexivity.
Qed.

Lemma filter_invalid_nil_iff (priceData : list PriceData) :
  filter (fun data => negb (Number_isFinite (price data))
                      || (price data <=? Fin 0)%num) priceData = []
  <-> Forall (fun d => valid_price (price d) = true) priceData.
Proof.
  split; [| apply filter_invalid_nil].
  induction priceData as [| d l IH]; simpl; intros H; [constructor |].
  destruct (negb (Number_isFinite (price d)) || (price d <=? Fin 0)%num) eqn:E;
    [discriminate |].
  constructor; [| apply IH; exact H].
  rewrite valid_price_negb_invalid, E; reflexivity.
Qed.

(** X6.  [validateInput] accepts a series exactly when it has the minimum
    number of points of the method (2 for simple, 5 for ewma, 10 for garch)
    and every price is finite and strictly positive; on an empty series it
    throws 'Price data cannot be empty', and a series that is too short is
    refused for its length whatever its prices. *)
Theorem validateInput_accepts_exactly (priceData : list PriceData) (method : DVOLMethod) :
  (validateInput priceData method = Ok tt
   <-> match method with garch => 10 | ewma => 5 | simple => 2 end <= len priceData
       /\ Forall (fun d => valid_price (price d) = true) priceData)
  /\ (priceData = [] -> validateInput priceData method = Throw PriceDataEmpty)
  /\ (len priceData < match method with garch => 10 | ewma => 5 | simple => 2 end ->
      exists e, validateInput priceData method = Throw e
                /\ kind_of e = InsufficientData).
Proof.
  split; [| split].
  - split.
    + unfold validateInput.
      destruct (Z.eqb_spec (len priceData) 0); [discriminate |].
      destruct (Z.ltb_spec (len priceData) 2); [discriminate |].
      destruct (Z.ltb_spec (len priceData)
                  match method with garch => 10 | ewma => 5 | simple => 2 end);
        [discriminate |].
      destruct (filter _ priceData) as [| d l] eqn:E.
      * intros _; split; [assumption |].
        apply filter_invalid_nil_iff; exact E.
      * unfold len; simpl; intros Habs; discriminate Habs.
    + intros [Hlen Hvalid]; apply validateInput_ok; assumption.
  - intros ->; reflexivity.
  - intros Hshort; unfold validateInput.
    destruct (Z.eqb_spec (len priceData) 0); [eexists; split; reflexivity |].
    destruct (Z.ltb_spec (len priceData) 2); [eexists; split; reflexivity |].
    destruct (Z.ltb_spec (len priceData)
                match method with garch => 10 | ewma => 5 | simple => 2 end);
      [eexists; split; reflexivity | lia].
Qed.

Lemma validateInput_accepts_exactly_witness :
  exists e,
    validateInput
      (map (fun p => {| timestamp := 1; price := p |}) [NaN; Fin 1; Fin 2; Fin 3])
      ewma = Throw e
    /\ kind_of e = InsufficientData.
Proof.
  apply (proj2 (proj2 (validateInput_accepts_exactly
                         (map (fun p => {| timestamp := 1; price := p |})
                              [NaN; Fin 1; Fin 2; Fin 3]) ewma))).
  unfold len; simpl; lia.
Defined.

(** ** Parameters out of range *)

(** X7.  On a series that [validateInput] accepts, the EWMA method refuses
    every finite [lambda] outside the open interval (0, 1), the end points
    included, with 'EWMA lambda must be between 0 and 1'. *)
Theorem calculateDVOL_ewma_refuses_lambda
    (now : Z) (priceData : list PriceData) (options : DVOLOptions) (l : R) :
  validateInput priceData ewma = Ok tt ->
  ewmaLambda options = Some (Fin l) ->
  (l <= 0 \/ 1 <= l)%R ->
  calculateDVOL now priceData ewma options = Throw EwmaLambdaOutOfRange.
Proof.
  intros Hvalid Hlam Hl; unfold calculateDVOL.
  rewrite Hvalid, Hlam; cbn [bind].
  unfold calculateEWMADVOL, ge; cbn [le].
  destruct Hl as [Hl | Hl].
  - rewrite (Rleb_true l 0 Hl); reflexivity.
  - rewrite (Rleb_true 1 l Hl), orb_true_r; reflexivity.
Qed.

Lemma five_valid_points :
  validateInput (constant_series (Fin 100) 5) ewma = Ok tt.
Proof.
  apply validateInput_ok.
  - autorewrite with len; lia.
  - apply (constant_valid 100); [lra | apply constant_series_const].
Qed.

Lemma calculateDVOL_ewma_refuses_lambda_witness :
  calculateDVOL 0 (constant_series (Fin 100) 5) ewma
    {| windowSize := None; ewmaLambda := Some (Fin 1); garchParams := None;
       annualizationFactor := None |}
  = Throw EwmaLambdaOutOfRange.
Proof.
  apply (calculateDVOL_ewma_refuses_lambda 0 _ _ 1).
  - exact five_valid_points.
  - reflexivity.
  - right; lra.
Defined.

(** X8.  On a series that [validateInput] accepts, the GARCH method refuses
    finite parameters with [omega <= 0], [alpha < 0], [beta < 0] or
    [alpha + beta >= 1], with 'Invalid GARCH parameters'. *)
Theorem calculateDVOL_garch_refuses_parameters
    (now : Z) (priceData : list PriceData) (options : DVOLOptions) (o a b : R) :
  validateInput priceData garch = Ok tt ->
  garchParams options = Some {| omega := Fin o; alpha := Fin a; beta := Fin b |} ->
  (o <= 0 \/ a < 0 \/ b < 0 \/ 1 <= a + b)%R ->
  calculateDVOL now priceData garch options = Throw InvalidGarchParameters.
Proof.
  intros Hvalid Hpar Hbad; unfold calculateDVOL.
  rewrite Hvalid, Hpar; cbn [bind].
  unfold calculateGARCHDVOL, ge, lt; cbn [omega alpha beta le add].
  destruct (Rle_dec o 0) as [Ho | Ho];
    [rewrite (Rleb_true o 0 Ho); reflexivity | rewrite (Rleb_false o 0) by lra].
  destruct (Rlt_dec a 0) as [Ha | Ha];
    [rewrite (Rleb_false 0 a Ha); reflexivity | rewrite (Rleb_true 0 a) by lra].
  destruct (Rlt_dec b 0) as [Hb | Hb];
    [rewrite (Rleb_false 0 b Hb); reflexivity | rewrite (Rleb_true 0 b) by lra].
  rewrite (Rleb_true 1 (a + b)) by lra; reflexivity.
Qed.

Lemma calculateDVOL_garch_refuses_parameters_witness :
  calculateDVOL 0 (constant_series (Fin 100) 12) garch
    {| windowSize := None; ewmaLambda := None;
       garchParams := Some {| omega := Fin (1 / 1000000); alpha := Fin (1 / 2);
                              beta := Fin (1 / 2) |};
       annualizationFactor := None |}
  = Throw InvalidGarchParameters.
Proof.
  apply (calculateDVOL_garch_refuses_parameters 0 _ _ (1 / 1000000) (1 / 2) (1 / 2)).
  - apply validateInput_ok.
    + autorewrite with len; lia.
    + apply (constant_valid 100); [lra | apply constant_series_const].
  - reflexivity.
  - right; right; right; lra.
Defined.

(** ** Minimum lengths of the estimators *)

Lemma logReturns_of_valid (priceData : list PriceData) :
  Forall (fun d => valid_price (price d) = true) priceData ->
  2 <= len priceData ->
  exists returns,
    calculateLogReturns (map price priceData) = Ok returns /\
    len returns = len priceData - 1.
Proof.
  intros Hvalid Hlen.
  destruct (calculateLogReturns_ok (map price priceData)) as [returns [Hret [Hrl _]]].
  - autorewrite with len; exact Hlen.
  - apply valid_prices_positive; exact Hvalid.
  - exists returns; split; [exact Hret | rewrite Hrl, len_map; reflexivity].
Qed.

(** X9.  [validateInput] lets a series of 10 points through to the GARCH method,
    whose estimator asks for 10 returns, that is 11 points: on every valid
    series of exactly 10 points, with the default parameters,
    [calculateDVOL] throws 'Need at least 10 returns for GARCH
    calculation'. *)
Theorem calculateDVOL_garch_ten_points_throws
    (now : Z) (priceData : list PriceData) (options : DVOLOptions) :
  garchParams options = None ->
  Forall (fun d => valid_price (price d) = true) priceData ->
  len priceData = 10 ->
  validateInput priceData garch = Ok tt /\
  calculateDVOL now priceData garch options = Throw NeedTenReturnsForGarch.
Proof.
  intros Hpar Hvalid Hlen.
  assert (Hin : validateInput priceData garch = Ok tt)
    by (apply validateInput_ok; [lia | exact Hvalid]).
  split; [exact Hin |].
  unfold calculateDVOL; rewrite Hin, Hpar; cbn [bind].
  unfold calculateGARCHDVOL, DEFAULT_GARCH_PARAMS, ge, lt; cbn [omega alpha beta le add].
  rewrite (Rleb_false (1 / 1000000) 0), (Rleb_true 0 (1 / 10)),
    (Rleb_true 0 (85 / 100)), (Rleb_false 1 (1 / 10 + 85 / 100)) by lra.
  cbn [negb orb].
  destruct (logReturns_of_valid priceData Hvalid ltac:(lia)) as [returns [-> Hrl]].
  cbn [bind].
  destruct (Z.ltb_spec (len returns) 10); [reflexivity | lia].
Qed.

Lemma calculateDVOL_garch_ten_points_throws_witness :
  validateInput (constant_series (Fin 100) 10) garch = Ok tt /\
  calculateDVOL 0 (constant_series (Fin 100) 10) garch no_options
  = Throw NeedTenReturnsForGarch.
Proof.
  apply (calculateDVOL_garch_ten_points_throws 0 (constant_series (Fin 100) 10)
           no_options).
  - reflexivity.
  - apply (constant_valid 100); [lra | apply constant_series_const].
  - apply len_constant_series.
Defined.

Lemma calculateVariance_cases (values : list num) :
  calculateVariance values = Throw NeedTwoValuesForVariance
  \/ exists v, calculateVariance values = Ok v.
Proof.
  destruct (Z_lt_le_dec (len values) 2) as [H | H].
  - left; apply calculateVariance_short; exact H.
  - right; rewrite calculateVariance_ok by exact H; eexists; reflexivity.
Qed.





(** ** The index *)

Lemma scale_inf_positive (positive : bool) (x : R) :
  (0 < x)%R -> scale_inf positive x = inf_of_sign positive.
Proof.
  intros H; unfold scale_inf.
  rewrite (Reqb_false x 0), (Rltb_true 0 x) by lra; reflexivity.
Qed.

Lemma calculateDVOLIndex_clamp (d : R) :
  calculateDVOLIndex (Fin d) = Fin (Rmax 0 (Rmin 100 ((d - 10) / 190 * 100))).
Proof.
  rewrite calculateDVOLIndex_Fin; f_equal.
  replace ((d + - 10) / (200 + - 10) * 100)%R with ((d - 10) / 190 * 100)%R
    by (unfold Rminus; do 2 f_equal; lra).
  unfold Rmax, Rmin, Rleb.
  destruct (Rle_dec 100 ((d - 10) / 190 * 100));
    destruct (Rle_dec 0 100); try lra;
    destruct (Rle_dec 0 ((d - 10) / 190 * 100)); reflexivity.
Qed.

(** X11.  [calculateDVOLIndex] is 0 up to a dvol of 10, 100 from a dvol of 200,
    linear in between, and never decreases when the dvol increases; it
    sends [+Infinity] to 100, [-Infinity] to 0 and [NaN] to [NaN]. *)
Theorem calculateDVOLIndex_shape :
  (forall d, (d <= 10)%R -> calculateDVOLIndex (Fin d) = Fin 0) /\
  (forall d, (200 <= d)%R -> calculateDVOLIndex (Fin d) = Fin 100) /\
  (forall d, (10 <= d <= 200)%R ->
     calculateDVOLIndex (Fin d) = Fin ((d - 10) / 190 * 100)) /\
  (forall d1 d2, (d1 <= d2)%R ->
     (calculateDVOLIndex (Fin d1) <=? calculateDVOLIndex (Fin d2))%num = true) /\
  calculateDVOLIndex PInf = Fin 100 /\
  calculateDVOLIndex NInf = Fin 0 /\
  calculateDVOLIndex NaN = NaN.
Proof.
  split; [| split; [| split; [| split; [| split; [| split]]]]].
  - intros d H; rewrite calculateDVOLIndex_clamp; f_equal.
    unfold Rmax, Rmin.
    destruct (Rle_dec 100 ((d - 10) / 190 * 100)); [lra |].
    destruct (Rle_dec 0 ((d - 10) / 190 * 100)); lra.
  - intros d H; rewrite calculateDVOLIndex_clamp; f_equal.
    unfold Rmax, Rmin.
    destruct (Rle_dec 100 ((d - 10) / 190 * 100)); [| lra].
    destruct (Rle_dec 0 100); lra.
  - intros d H; rewrite calculateDVOLIndex_clamp; f_equal.
    unfold Rmax, Rmin.
    destruct (Rle_dec 100 ((d - 10) / 190 * 100));
      [destruct (Rle_dec 0 100); lra |].
    destruct (Rle_dec 0 ((d - 10) / 190 * 100)); lra.
  - intros d1 d2 H; rewrite !calculateDVOLIndex_clamp; cbn [le].
    apply Rleb_true; unfold Rmax, Rmin.
    destruct (Rle_dec 100 ((d1 - 10) / 190 * 100));
      destruct (Rle_dec 100 ((d2 - 10) / 190 * 100));
      destruct (Rle_dec 0 100); try lra;
      destruct (Rle_dec 0 ((d1 - 10) / 190 * 100));
      destruct (Rle_dec 0 ((d2 - 10) / 190 * 100)); lra.
  - unfold calculateDVOLIndex, sub; cbn [neg add div]; decide_R.
    cbn [mul]; rewrite scale_inf_positive by lra.
    cbn [inf_of_sign Math_min le]; rewrite Math_max_Fin; decide_R; reflexivity.
  - unfold calculateDVOLIndex, sub; cbn [neg add div]; decide_R.
    cbn [mul]; rewrite scale_inf_positive by lra.
    reflexivity.
  - reflexivity.
Qed.

Lemma calculateDVOLIndex_shape_witness :
  calculateDVOLIndex (Fin 5) = Fin 0 /\
  calculateDVOLIndex (Fin 250) = Fin 100 /\
  calculateDVOLIndex (Fin 105) = Fin ((105 - 10) / 190 * 100) /\
  (calculateDVOLIndex (Fin 50) <=? calculateDVOLIndex (Fin 60))%num = true.
Proof.
  destruct calculateDVOLIndex_shape as [A [B [C [D _]]]].
  split; [apply A; lra |].
  split; [apply B; lra |].
  split; [apply C; lra | apply D; lra].
Defined.

(** ** The stability score *)

Lemma clamp_0_100_Fin (e : R) :
  exists c, Math_max (Fin 0) (Math_min (Fin 100) (Fin e)) = Fin c
            /\ (0 <= c <= 100)%R.
Proof.
  rewrite Math_min_Fin, Math_max_Fin; eexists; split; [reflexivity |].
  unfold Rleb.
  destruct (Rle_dec 100 e);
    [destruct (Rle_dec 0 100); lra | destruct (Rle_dec 0 e); lra].
Qed.

Lemma in_0_100_Fin (c : R) : (0 <= c <= 100)%R -> in_0_100 (Fin c) = true.
Proof.
  intros H; unfold in_0_100; cbn [le].
  rewrite (Rleb_true 0 c), (Rleb_true c 100) by lra; reflexivity.
Qed.

Lemma in_0_100_inv (c : num) :
  in_0_100 c = true -> exists x, c = Fin x /\ (0 <= x <= 100)%R.
Proof.
  unfold in_0_100; destruct c as [| | | x]; cbn [le andb]; try discriminate.
  intros H; apply andb_true_iff in H; destruct H as [H0 H100].
  exists x; split; [reflexivity |].
  unfold Rleb in *.
  destruct (Rle_dec 0 x); [| discriminate].
  destruct (Rle_dec x 100); [lra | discriminate].
Qed.

(** The clamp [Math.max(0, Math.min(100, x))] is a number in [[0, 100]],
    or [NaN] when [x] is. *)
Lemma clamp_range (x : num) :
  Math_max (Fin 0) (Math_min (Fin 100) x) = NaN
  \/ in_0_100 (Math_max (Fin 0) (Math_min (Fin 100) x)) = true.
Proof.
  destruct x as [| | | e].
  - left; reflexivity.
  - right; cbn [Math_min le]; rewrite Math_max_Fin; apply in_0_100_Fin.
    unfold Rleb; destruct (Rle_dec 0 100); lra.
  - right; cbn [Math_min Math_max le]; apply in_0_100_Fin; lra.
  - right; destruct (clamp_0_100_Fin e) as [c [-> Hc]].
    apply in_0_100_Fin; exact Hc.
Qed.

Lemma calculateStability_clamped (variances : list num) :
  exists c, calculateStability variances = Ok c
            /\ (c = NaN \/ in_0_100 c = true).
Proof.
  unfold calculateStability.
  destruct (Z.ltb_spec (len variances) 2).
  - exists (Fin 50); split; [reflexivity | right; apply in_0_100_Fin; lra].
  - rewrite calculateMean_ok, calculateStandardDeviation_ok by lia; cbn [bind].
    eexists; split; [reflexivity | apply clamp_range].
Qed.

(** X12.  [calculateStability] never throws.  It is 50 for fewer than two
    values and [NaN] for two or more values that are all 0; whatever the
    values, [NaN] and the infinities included, it is either [NaN] or a
    number in [[0, 100]]. *)
Theorem calculateStability_range (variances : list num) :
  (len variances < 2 -> calculateStability variances = Ok (Fin 50))
  /\
  (2 <= len variances -> Forall (fun v => v = Fin 0) variances ->
   calculateStability variances = Ok NaN)
  /\
  (exists c, calculateStability variances = Ok c
             /\ (c = NaN \/ in_0_100 c = true)).
Proof.
  split; [| split].
  - intros H; unfold calculateStability.
    destruct (Z.ltb_spec (len variances) 2); [reflexivity | lia].
  - intros Hlen Hz.
    assert (Hrep : variances = repeat (Fin 0) (length variances)).
    { apply Forall_eq_repeat.
      eapply Forall_impl; [| exact Hz].
      intros v Hv; symmetry; exact Hv. }
    rewrite Hrep; apply calculateStability_zeros; unfold len in Hlen; lia.
  - apply calculateStability_clamped.
Qed.

Lemma calculateStability_range_witness :
  calculateStability [Fin 7] = Ok (Fin 50)
  /\
  calculateStability [Fin 0; Fin 0; Fin 0] = Ok NaN.
Proof.
  split.
  - apply (proj1 (calculateStability_range [Fin 7])); unfold len; simpl; lia.
  - apply (proj1 (proj2 (calculateStability_range [Fin 0; Fin 0; Fin 0])));
      [unfold len; simpl; lia | repeat constructor].
Defined.

(** ** The ranges of the index and of the confidence *)

Lemma Math_abs_cases (a : num) :
  Math_abs a = NaN \/ Math_abs a = PInf
  \/ exists x, Math_abs a = Fin x /\ (0 <= x)%R.
Proof.
  destruct a as [| | | x]; cbn [Math_abs]; auto.
  right; right; exists (Rabs x); split; [reflexivity | apply Rabs_pos].
Qed.

(** The quality score [Math.max(0, 100 - (|mean| + |std - 1|) * 50)] of the
    GARCH confidence. *)
Lemma quality_score_range (m s : num) :
  let q := Math_max (Fin 0)
             (Fin 100 - (Math_abs m + Math_abs (s - Fin 1)) * Fin 50)%num in
  q = NaN \/ exists x, q = Fin x /\ (0 <= x <= 100)%R.
Proof.
  cbv zeta.
  destruct (Math_abs_cases m) as [-> | [-> | [x [-> Hx]]]];
    destruct (Math_abs_cases (s - Fin 1)) as [-> | [-> | [y [-> Hy]]]];
    try (left; reflexivity).
  - right; exists 0%R; cbn [add mul]; rewrite scale_inf_positive by lra.
    split; [reflexivity | lra].
  - right; exists 0%R; cbn [add mul]; rewrite scale_inf_positive by lra.
    split; [reflexivity | lra].
  - right; exists 0%R; cbn [add mul]; rewrite scale_inf_positive by lra.
    split; [reflexivity | lra].
  - right; cbn [add mul sub neg]; rewrite Math_max_Fin.
    eexists; split; [reflexivity |].
    unfold Rleb;
      destruct (Rle_dec 0 (100 + - ((x + y) * 50))); nra.
Qed.

Lemma half_sum_range (q s : num) :
  (q = NaN \/ exists x, q = Fin x /\ (0 <= x <= 100)%R) ->
  (s = NaN \/ in_0_100 s = true) ->
  ((q + s) / Fin 2)%num = NaN \/ in_0_100 ((q + s) / Fin 2)%num = true.
Proof.
  intros [-> | [x [-> Hx]]] Hs; [left; reflexivity |].
  destruct Hs as [-> | Hs]; [left; reflexivity |].
  apply in_0_100_inv in Hs; destruct Hs as [y [-> Hy]].
  right; cbn [add]; rewrite div_Fin by lra.
  apply in_0_100_Fin; lra.
Qed.

Lemma calculateGARCHConfidence_clamped (standardizedResiduals variances : list num)
    (c : num) :
  calculateGARCHConfidence standardizedResiduals variances = Ok c ->
  c = NaN \/ in_0_100 c = true.
Proof.
  unfold calculateGARCHConfidence.
  destruct (len standardizedResiduals =? 0).
  - intros H; injection H as <-; right; apply in_0_100_Fin; lra.
  - destruct (calculateMean standardizedResiduals) as [m | e]; [| discriminate].
    cbn [bind].
    destruct (calculateStandardDeviation standardizedResiduals) as [s | e];
      [| discriminate].
    cbn [bind].
    destruct (calculateStability_clamped variances) as [v [-> Hv]]; cbn [bind].
    intros H; injection H as <-.
    apply half_sum_range; [apply quality_score_range | exact Hv].
Qed.

Lemma calculateSimpleDVOL_clamped (priceData : list PriceData) (windowSize : Z)
    (af d c : num) :
  calculateSimpleDVOL priceData windowSize af = Ok (d, c) ->
  c = NaN \/ in_0_100 c = true.
Proof.
  unfold calculateSimpleDVOL.
  destruct (calculateLogReturns (map price priceData)) as [returns | e];
    [| discriminate].
  cbn [bind].
  destruct (len returns <? windowSize); [discriminate |].
  destruct (rollingVolatilities returns windowSize) as [vols | e]; [| discriminate].
  cbn [bind].
  destruct (calculateMean vols) as [m | e]; [| discriminate].
  cbn [bind].
  destruct (calculateStandardDeviation vols) as [s | e]; [| discriminate].
  cbn [bind].
  intros H; injection H as _ <-; apply clamp_range.
Qed.

Lemma calculateEWMADVOL_clamped (priceData : list PriceData) (lambda af d c : num) :
  calculateEWMADVOL priceData lambda af = Ok (d, c) ->
  c = NaN \/ in_0_100 c = true.
Proof.
  unfold calculateEWMADVOL.
  destruct ((lambda <=? Fin 0)%num || (lambda >=? Fin 1)%num); [discriminate |].
  destruct (calculateLogReturns (map price priceData)) as [returns | e];
    [| discriminate].
  cbn [bind].
  destruct (len returns <? 2); [discriminate |].
  destruct (ewmaVariances returns lambda) as [[v vs] | e]; [| discriminate].
  cbn [bind].
  destruct (calculateStability _) as [st | e]; [| discriminate].
  cbn [bind].
  intros H; injection H as _ <-; apply clamp_range.
Qed.

Lemma calculateGARCHDVOL_clamped (priceData : list PriceData) (params : GARCHParams)
    (af d c : num) :
  calculateGARCHDVOL priceData params af = Ok (d, c) ->
  c = NaN \/ in_0_100 c = true.
Proof.
  unfold calculateGARCHDVOL.
  destruct (_ || _); [discriminate |].
  destruct (calculateLogReturns (map price priceData)) as [returns | e];
    [| discriminate].
  cbn [bind].
  destruct (len returns <? 10); [discriminate |].
  destruct (calculateVariance returns) as [u | e]; [| discriminate].
  cbn [bind].
  destruct (garchVariances returns params u) as [[[v vs] rs] | e]; [| discriminate].
  cbn [bind].
  destruct (calculateGARCHConfidence rs vs) as [conf | e] eqn:E; [| discriminate].
  cbn [bind].
  intros H; injection H as _ <-.
  exact (calculateGARCHConfidence_clamped rs vs conf E).
Qed.

(** X15.  Whenever [calculateDVOL] returns, whatever the series, the method
    and the options, the index and the confidence of the result are each
    either [NaN] or a number in [[0, 100]]: they are never below 0, above
    100 or infinite. *)
Theorem calculateDVOL_index_and_confidence_range
    (now : Z) (priceData : list PriceData) (method : DVOLMethod)
    (options : DVOLOptions) (r : DVOLResult) :
  calculateDVOL now priceData method options = Ok r ->
  (dvolIndex r = NaN \/ in_0_100 (dvolIndex r) = true)
  /\
  (confidence r = NaN \/ in_0_100 (confidence r) = true).
Proof.
  unfold calculateDVOL.
  destruct (validateInput priceData method) as [[] | e]; [| discriminate].
  cbn [bind].
  destruct (match method with
            | simple => calculateSimpleDVOL priceData _ _
            | ewma => calculateEWMADVOL priceData _ _
            | garch => calculateGARCHDVOL priceData _ _
            end) as [[d c] | e] eqn:E; [| discriminate].
  cbn [bind].
  intros H; injection H as <-; cbn [dvolIndex confidence].
  split; [unfold calculateDVOLIndex; apply clamp_range |].
  destruct method.
  - exact (calculateSimpleDVOL_clamped _ _ _ _ _ E).
  - exact (calculateEWMADVOL_clamped _ _ _ _ _ E).
  - exact (calculateGARCHDVOL_clamped _ _ _ _ _ E).
Qed.

Lemma calculateDVOL_index_and_confidence_range_witness :
  (calculateDVOLIndex (Fin 0) = NaN \/ in_0_100 (calculateDVOLIndex (Fin 0)) = true)
  /\
  ((NaN : num) = NaN \/ in_0_100 NaN = true).
Proof.
  apply (calculateDVOL_index_and_confidence_range
           0 (constant_series (Fin 100) 5) ewma no_options
           {| dvol := Fin 0; dvolIndex := calculateDVOLIndex (Fin 0);
              confidence := NaN; method := ewma;
              dataPoints := len (constant_series (Fin 100) 5);
              calculatedAt := 0 |}).
  apply (calculateDVOL_ewma_constant 0 _ 100); constant_series_facts.
Defined.

(** ** The volatility metrics *)

Lemma getPeriodsPerYear_bounds (period : string) (dataPoints : Z) :
  1 <= dataPoints ->
  exists q, getPeriodsPerYear period dataPoints = Fin q /\ (12 <= q <= 8760)%R.
Proof.
  intros H; unfold getPeriodsPerYear.
  destruct (String.eqb period "1d"); [eexists; split; [reflexivity | lra] |].
  destruct (String.eqb period "30d"); [eexists; split; [reflexivity | lra] |].
  destruct (String.eqb period "365d"); [eexists; split; [reflexivity | lra] |].
  assert (1 <= IZR dataPoints)%R by (apply IZR_le; exact H).
  unfold of_Z; cbn [mul]; rewrite Math_min_Fin.
  eexists; split; [reflexivity |].
  unfold Rleb; destruct (Rle_dec 365 (IZR dataPoints * 12)); lra.
Qed.

(** X13.  [calculateMetrics] lets a series of two points through its own length
    check, and then throws 'Need at least 2 values to calculate variance':
    two valid prices give a single return. *)
Theorem calculateMetrics_two_points_throws
    (priceData : list PriceData) (period : string) :
  Forall (fun d => valid_price (price d) = true) priceData ->
  len priceData = 2 ->
  calculateMetrics priceData period = Throw NeedTwoValuesForVariance.
Proof.
  intros Hvalid Hlen; unfold calculateMetrics.
  destruct (Z.ltb_spec (len priceData) 2); [lia |].
  destruct (logReturns_of_valid priceData Hvalid ltac:(lia)) as [returns [-> Hrl]].
  cbn [bind]; rewrite calculateVariance_short by lia; reflexivity.
Qed.

Lemma calculateMetrics_two_points_throws_witness :
  calculateMetrics
    [ {| timestamp := 0; price := Fin 100 |}; {| timestamp := 1; price := Fin 105 |} ]
    "1d"
  = Throw NeedTwoValuesForVariance.
Proof.
  apply calculateMetrics_two_points_throws.
  - repeat constructor; apply valid_price_Fin; eexists; (split; [reflexivity | lra]).
  - reflexivity.
Defined.

(** X14.  On three valid points or more [calculateMetrics] returns: the log
    returns are at least two, so the variance is defined, and the periods
    per year lie between 12 and 8760 whatever the period string, so the
    check of [annualizeVolatility] never fires.  The three fields are the
    square root of the variance of the log returns times 100, that variance
    times 10000, and the square root times the square root of the periods
    per year, times 100. *)
Theorem calculateMetrics_returns_from_three_points
    (priceData : list PriceData) (period : string) :
  Forall (fun d => valid_price (price d) = true) priceData ->
  3 <= len priceData ->
  exists returns v q,
    calculateLogReturns (map price priceData) = Ok returns /\
    calculateVariance returns = Ok v /\
    getPeriodsPerYear period (len returns) = Fin q /\
    (12 <= q <= 8760)%R /\
    calculateMetrics priceData period
    = Ok {| volatility := (Math_sqrt v * Fin 100)%num;
            variance := (v * Fin 10000)%num;
            annualizedVolatility :=
              (Math_sqrt v * Math_sqrt (Fin q) * Fin 100)%num |}.
Proof.
  intros Hvalid Hlen.
  destruct (logReturns_of_valid priceData Hvalid ltac:(lia)) as [returns [Hret Hrl]].
  destruct (calculateVariance_cases returns) as [Habs | [v Hv]];
    [rewrite calculateVariance_ok in Habs by lia; discriminate |].
  destruct (getPeriodsPerYear_bounds period (len returns)) as [q [Hq Hqb]]; [lia |].
  exists returns, v, q.
  split; [exact Hret |].
  split; [exact Hv |].
  split; [exact Hq |].
  split; [exact Hqb |].
  unfold calculateMetrics.
  destruct (Z.ltb_spec (len priceData) 2); [lia |].
  rewrite Hret; cbn [bind]; rewrite Hv; cbn [bind]; rewrite Hq.
  unfold annualizeVolatility; cbn [le]; rewrite Rleb_false by lra.
  reflexivity.
Qed.

Lemma calculateMetrics_returns_from_three_points_witness :
  exists returns v q,
    calculateLogReturns
      (map price (map (fun p => {| timestamp := 0; price := Fin p |})
                      [100; 110; 99]%R)) = Ok returns /\
    calculateVariance returns = Ok v /\
    getPeriodsPerYear "30d" (len returns) = Fin q /\
    (12 <= q <= 8760)%R /\
    calculateMetrics
      (map (fun p => {| timestamp := 0; price := Fin p |}) [100; 110; 99]%R) "30d"
    = Ok {| volatility := (Math_sqrt v * Fin 100)%num;
            variance := (v * Fin 10000)%num;
            annualizedVolatility :=
              (Math_sqrt v * Math_sqrt (Fin q) * Fin 100)%num |}.
Proof.
  apply (calculateMetrics_returns_from_three_points
           (map (fun p => {| timestamp := 0; price := Fin p |}) [100; 110; 99]%R)
           "30d").
  - repeat constructor; apply valid_price_Fin; eexists; (split; [reflexivity | lra]).
  - unfold len; simpl; lia.
Defined.

(** ** The GARCH(1,1) estimator from eleven points *)

(** The loop of [calculateGARCHDVOL] does not throw, and leaves one
    standardized residual for each return after the first. *)
Lemma garchVariances_total (logReturns : list num) (params : GARCHParams)
    (unconditionalVariance : num) :
  1 <= len logReturns ->
  exists variance variances standardizedResiduals,
    garchVariances logReturns params unconditionalVariance
    = Ok (variance, variances, standardizedResiduals)
    /\ len standardizedResiduals = len logReturns - 1.
Proof.
  intros Hlen; unfold garchVariances.
  match goal with
  | |- context [for_loop ?lo ?hi ?body ?init] =>
      destruct (for_loop_inv
                  (fun i (st : num * list num * list num) => len (snd st) = i - 1)
                  body lo hi init) as [[[v vs] rs] [Hrun Hinv]]
  end.
  - exact Hlen.
  - reflexivity.
  - intros j [[v vs] rs] Hj Hinv; cbn [snd] in Hinv.
    eexists; split; [reflexivity |].
    cbn [snd]; autorewrite with len; lia.
  - exists v, vs, rs; split; [exact Hrun | exact Hinv].
Qed.

(** X16.  With the default parameters the GARCH method returns on every
    valid series of eleven points or more: nothing after the length check
    of the estimator throws. *)
Theorem calculateDVOL_garch_returns_from_eleven_points
    (now : Z) (priceData : list PriceData) (options : DVOLOptions) :
  garchParams options = None ->
  Forall (fun d => valid_price (price d) = true) priceData ->
  11 <= len priceData ->
  exists r, calculateDVOL now priceData garch options = Ok r.
Proof.
  intros Hpar Hvalid Hlen.
  unfold calculateDVOL.
  rewrite validateInput_ok by (try assumption; lia).
  rewrite Hpar; cbn [bind].
  unfold calculateGARCHDVOL, DEFAULT_GARCH_PARAMS, ge, lt; cbn [omega alpha beta le add].
  rewrite (Rleb_false (1 / 1000000) 0), (Rleb_true 0 (1 / 10)),
    (Rleb_true 0 (85 / 100)), (Rleb_false 1 (1 / 10 + 85 / 100)) by lra.
  cbn [negb orb].
  destruct (logReturns_of_valid priceData Hvalid ltac:(lia)) as [returns [-> Hrl]].
  cbn [bind].
  destruct (Z.ltb_spec (len returns) 10); [lia |].
  rewrite calculateVariance_ok by lia; cbn [bind].
  match goal with
  | |- context [garchVariances ?a ?b ?c] =>
      destruct (garchVariances_total a b c ltac:(lia)) as [v [vs [rs [-> Hrs]]]]
  end.
  cbn [bind].
  destruct (calculateGARCHConfidence_total rs vs ltac:(lia)) as [c ->].
  cbn [bind]; eexists; reflexivity.
Qed.

Lemma calculateDVOL_garch_returns_from_eleven_points_witness :
  exists r, calculateDVOL 0 (constant_series (Fin 100) 11) garch no_options = Ok r.
Proof.
  apply (calculateDVOL_garch_returns_from_eleven_points
           0 (constant_series (Fin 100) 11) no_options).
  - reflexivity.
  - apply (constant_valid 100); [lra | apply constant_series_const].
  - rewrite len_constant_series; lia.
Defined.

(** ** The diagnostics from three points *)

Lemma calculateAutocorrelation_total (returns : list num) (lag : Z) :
  0 <= lag -> exists rho, calculateAutocorrelation returns lag = Ok rho.
Proof.
  intros Hlag; unfold calculateAutocorrelation.
  destruct (Z.leb_spec (len returns) lag); [eexists; reflexivity |].
  rewrite calculateMean_ok by lia; cbn [bind].
  set (mean := (fold_left add returns (Fin 0) / of_Z (len returns))%num).
  rewrite (accumulate
             (fun i => (get returns i - mean) * (get returns (i + lag) - mean))%num).
  cbn [bind].
  rewrite (accumulate (fun i => Math_pow (get returns i - mean) 2)).
  cbn [bind]; eexists; reflexivity.
Qed.

Lemma calculateSkewness_total (returns : list num) :
  2 <= len returns -> exists sk, calculateSkewness returns = Ok sk.
Proof.
  intros H; unfold calculateSkewness.
  rewrite calculateMean_ok, calculateStandardDeviation_ok by lia; cbn [bind].
  destruct (_ =? _)%num; eexists; reflexivity.
Qed.

Lemma calculateKurtosis_total (returns : list num) :
  2 <= len returns -> exists ku, calculateKurtosis returns = Ok ku.
Proof.
  intros H; unfold calculateKurtosis.
  rewrite calculateMean_ok, calculateStandardDeviation_ok by lia; cbn [bind].
  destruct (_ =? _)%num; eexists; reflexivity.
Qed.

(** X19.  [calculateDiagnostics] has no length check of its own: on fewer
    than two points it throws 'Need at least 2 price points to calculate
    returns', from [calculateLogReturns], and on every series of three valid
    points or more it returns. *)
Theorem calculateDiagnostics_returns_from_three_points
    (priceData : list PriceData) (method : DVOLMethod) (options : DVOLOptions) :
  (len priceData < 2 ->
   calculateDiagnostics priceData method options
   = Throw NeedTwoPricePointsForReturns)
  /\
  (Forall (fun d => valid_price (price d) = true) priceData ->
   3 <= len priceData ->
   exists d, calculateDiagnostics priceData method options = Ok d).
Proof.
  unfold calculateDiagnostics; split.
  - intros H; rewrite calculateLogReturns_short by (rewrite len_map; exact H).
    reflexivity.
  - intros Hvalid Hlen.
    destruct (logReturns_of_valid priceData Hvalid ltac:(lia)) as [returns [-> Hrl]].
    cbn [bind].
    destruct (calculateAutocorrelation_total returns 1 ltac:(lia)) as [ac ->].
    cbn [bind]; unfold calculateHeteroskedasticity.
    destruct (calculateAutocorrelation_total
                (map (fun r => r * r)%num returns) 1 ltac:(lia)) as [h ->].
    cbn [bind].
    destruct (calculateSkewness_total returns ltac:(lia)) as [sk ->].
    destruct (calculateKurtosis_total returns ltac:(lia)) as [ku ->].
    cbn [bind]; eexists; reflexivity.
Qed.

Lemma calculateDiagnostics_returns_from_three_points_witness :
  calculateDiagnostics [ {| timestamp := 0; price := Fin 100 |} ] ewma no_options
  = Throw NeedTwoPricePointsForReturns
  /\
  exists d,
    calculateDiagnostics
      (map (fun p => {| timestamp := 0; price := Fin p |}) [100; 110; 99]%R)
      ewma no_options = Ok d.
Proof.
  split.
  - apply (proj1 (calculateDiagnostics_returns_from_three_points
                    [ {| timestamp := 0; price := Fin 100 |} ] ewma no_options)).
    unfold len; simpl; lia.
  - apply (proj2 (calculateDiagnostics_returns_from_three_points
                    (map (fun p => {| timestamp := 0; price := Fin p |})
                         [100; 110; 99]%R) ewma no_options)).
    + repeat constructor; apply valid_price_Fin; eexists;
        (split; [reflexivity | lra]).
    + unfold len; simpl; lia.
Defined.

(** ** The diagnostics on a series of constant price *)

Lemma Sigma_Fin (g : Z -> num) (f : Z -> R) :
  forall (count : nat) (lo : Z),
    (forall i, lo <= i < lo + Z.of_nat count -> g i = Fin (f i)) ->
    Sigma g lo count = Fin (RSigma f lo count).
Proof.
  induction count as [| count IH]; intros lo H; [reflexivity |].
  simpl; rewrite (H lo) by lia.
  rewrite (IH (lo + 1)) by (intros i Hi; apply H; lia).
  reflexivity.
Qed.

Lemma RSigma_zero (count : nat) (lo : Z) : RSigma (fun _ => 0%R) lo count = 0%R.
Proof.
  revert lo; induction count as [| count IH]; intros lo; simpl; [reflexivity |].
  rewrite IH; ring.
Qed.

(** X20.  On a series of constant positive price, of three points or more, the
    four diagnostics are all 0: no division by zero is met. *)
Theorem calculateDiagnostics_constant_price
    (priceData : list PriceData) (method : DVOLMethod) (options : DVOLOptions)
    (x : R) :
  (0 < x)%R ->
  Forall (fun d => price d = Fin x) priceData ->
  3 <= len priceData ->
  calculateDiagnostics priceData method options
  = Ok {| autocorrelation := Fin 0; heteroskedasticity := Fin 0;
          skewness := Fin 0; kurtosis := Fin 0 |}.
Proof.
  intros Hx Hconst Hlen; unfold calculateDiagnostics.
  rewrite (constant_prices x priceData Hconst).
  rewrite calculateLogReturns_constant by (unfold len in Hlen; lia || assumption).
  cbn [bind].
  set (m := (length priceData - 1)%nat).
  assert (Hm : (2 <= m)%nat) by (unfold m, len in *; lia).
  assert (Hauto : calculateAutocorrelation (repeat (Fin 0) m) 1 = Ok (Fin 0)).
  { unfold calculateAutocorrelation; rewrite len_repeat.
    destruct (Z.leb_spec (Z.of_nat m) 1); [reflexivity |].
    rewrite calculateMean_zeros by lia; cbn [bind].
    rewrite (accumulate (fun i => (get (repeat (Fin 0) m) i - Fin 0)
                                  * (get (repeat (Fin 0) m) (i + 1) - Fin 0))%num).
    cbn [bind].
    rewrite (accumulate (fun i => Math_pow (get (repeat (Fin 0) m) i - Fin 0) 2)).
    cbn [bind].
    rewrite (Sigma_Fin (fun i => Math_pow (get (repeat (Fin 0) m) i - Fin 0) 2)
               (fun _ => 0%R)).
    2:{ intros i Hi; rewrite get_repeat by lia.
        cbn [sub neg add mul Math_pow one]; f_equal; ring. }
    rewrite RSigma_zero.
    cbn [eqb]; rewrite Reqb_true by reflexivity; reflexivity. }
  rewrite Hauto; cbn [bind].
  unfold calculateHeteroskedasticity; rewrite map_repeat.
  replace (Fin 0 * Fin 0)%num with (Fin 0) by (simpl; f_equal; ring).
  rewrite Hauto; cbn [bind].
  unfold calculateSkewness, calculateKurtosis.
  rewrite calculateMean_zeros, calculateStandardDeviation_zeros by lia.
  cbn [bind eqb]; rewrite Reqb_true by reflexivity; reflexivity.
Qed.

Lemma calculateDiagnostics_constant_price_witness :
  calculateDiagnostics (constant_series (Fin 100) 3) simple no_options
  = Ok {| autocorrelation := Fin 0; heteroskedasticity := Fin 0;
          skewness := Fin 0; kurtosis := Fin 0 |}.
Proof.
  apply (calculateDiagnostics_constant_price _ simple no_options 100).
  - lra.
  - apply constant_series_const.
  - autorewrite with len; lia.
Defined.

(** ** The earlier EWMA estimator *)

Lemma ewma_loops_agree (logReturns : list num) (lambda : num) :
  forall (fuel : nat) (i : Z) (v : num) (vs : list num),
  exists w ws,
    for_loop_from fuel i
      (fun i ewmaVariance =>
         Ok (lambda * ewmaVariance
             + (Fin 1 - lambda) * Math_pow (get logReturns i) 2)%num) v
    = Ok w /\
    for_loop_from fuel i
      (fun i '(ewmaVariance, variances) =>
         let ewmaVariance :=
           (lambda * ewmaVariance
            + (Fin 1 - lambda) * Math_pow (get logReturns i) 2)%num in
         Ok (ewmaVariance, variances ++ [ewmaVariance])) (v, vs)
    = Ok (w, ws).
Proof.
  induction fuel as [| fuel IH]; intros i v vs; simpl.
  - exists v, vs; split; reflexivity.
  - apply IH.
Qed.

Lemma ewma_loop_agrees (logReturns : list num) (lambda : num) :
  exists w ws,
    for_loop 1 (len logReturns)
      (fun i ewmaVariance =>
         Ok (lambda * ewmaVariance
             + (Fin 1 - lambda) * Math_pow (get logReturns i) 2)%num)
      (Math_pow (get logReturns 0) 2)
    = Ok w /\
    ewmaVariances logReturns lambda = Ok (w, ws).
Proof.
  unfold ewmaVariances, for_loop.
  exact (ewma_loops_agree logReturns lambda (Z.to_nat (len logReturns - 1)) 1
           (Math_pow (get logReturns 0) 2) [Math_pow (get logReturns 0) 2]).
Qed.

(** X21.  Whenever the EWMA method of [dvol.ts] returns, with the annualization
    factor 365, the earlier [calculateEWMAVolatility] of [dvol2.ts] returns
    the same [dvol]; the earlier one has no minimum of two returns: on two
    valid points it returns where the later one throws 'Need at least 2
    returns for EWMA calculation'. *)
Theorem earlier_ewma_agrees (priceData : list PriceData) (lambda : num) :
  (forall d c,
     calculateEWMADVOL priceData lambda ANNUALIZATION_FACTOR = Ok (d, c) ->
     DVOLCalculator2.calculateEWMAVolatility priceData lambda = Ok d)
  /\
  (forall l,
     lambda = Fin l -> (0 < l < 1)%R ->
     Forall (fun d => valid_price (price d) = true) priceData ->
     len priceData = 2 ->
     calculateEWMADVOL priceData lambda ANNUALIZATION_FACTOR
     = Throw NeedTwoReturnsForEwma /\
     exists d, DVOLCalculator2.calculateEWMAVolatility priceData lambda = Ok d).
Proof.
  split.
  - intros d c H.
    unfold calculateEWMADVOL in H; unfold DVOLCalculator2.calculateEWMAVolatility.
    destruct ((lambda <=? Fin 0)%num || (lambda >=? Fin 1)%num); [discriminate |].
    destruct (calculateLogReturns (map price priceData)) as [returns | e];
      [| discriminate].
    cbn [bind] in *.
    destruct (len returns <? 2); [discriminate |].
    destruct (ewma_loop_agrees returns lambda) as [w [ws [H1 H2]]].
    rewrite H2 in H; rewrite H1; cbn [bind] in *.
    destruct (calculateStability _) as [st | e]; [| discriminate].
    cbn [bind] in H; injection H as <- _; reflexivity.
  - intros l -> Hl Hvalid Hlen.
    destruct (logReturns_of_valid priceData Hvalid ltac:(lia)) as [returns [Hret Hrl]].
    split.
    + unfold calculateEWMADVOL, ge; cbn [le].
      rewrite (Rleb_false l 0), (Rleb_false 1 l) by lra; cbn [orb].
      rewrite Hret; cbn [bind].
      destruct (Z.ltb_spec (len returns) 2); [reflexivity | lia].
    + unfold DVOLCalculator2.calculateEWMAVolatility.
      rewrite Hret; cbn [bind].
      destruct (ewma_loop_agrees returns (Fin l)) as [w [_ [-> _]]].
      cbn [bind]; eexists; reflexivity.
Qed.

Lemma earlier_ewma_agrees_witness :
  calculateEWMADVOL
    [ {| timestamp := 0; price := Fin 100 |}; {| timestamp := 1; price := Fin 105 |} ]
    (Fin (94 / 100)) ANNUALIZATION_FACTOR
  = Throw NeedTwoReturnsForEwma /\
  exists d,
    DVOLCalculator2.calculateEWMAVolatility
      [ {| timestamp := 0; price := Fin 100 |}; {| timestamp := 1; price := Fin 105 |} ]
      (Fin (94 / 100)) = Ok d.
Proof.
  apply (proj2 (earlier_ewma_agrees
                  [ {| timestamp := 0; price := Fin 100 |};
                    {| timestamp := 1; price := Fin 105 |} ] (Fin (94 / 100)))
           (94 / 100)%R).
  - reflexivity.
  - lra.
  - repeat constructor; apply valid_price_Fin; eexists; (split; [reflexivity | lra]).
  - reflexivity.
Defined.

(** ** What the providers hand over *)

Lemma forallb_pointwise {A : Type} (f g : A -> bool) (l : list A) :
  (forall x, f x = g x) -> forallb f l = forallb g l.
Proof.
  intros H; induction l as [| a l IH]; [reflexivity |].
  cbn [forallb]; rewrite H, IH; reflexivity.
Qed.

Lemma NaN_not_positive (p : num) :
  negb (Number_isNaN p) && (Fin 0 <? p)%num = (Fin 0 <? p)%num.
Proof. destruct p; reflexivity. Qed.

Lemma positive_finite_or_infinite (p : num) :
  (Fin 0 <? p)%num = true -> valid_price p = true \/ p = PInf.
Proof.
  unfold valid_price; destruct p; simpl; intros H; try discriminate;
    [right; reflexivity | left; exact H].
Qed.

Lemma accepted_positive (data : list PriceData) :
  CoinDeskProvider.validatePriceData data = true ->
  1 < len data /\ Forall (fun d => positive (price d) = true) data.
Proof.
  unfold CoinDeskProvider.validatePriceData; intros H.
  apply andb_prop in H; destruct H as [Hlen Hall].
  split; [apply Z.gtb_lt in Hlen; lia |].
  apply Forall_forall; intros d Hd.
  rewrite forallb_forall in Hall; specialize (Hall d Hd).
  apply andb_prop in Hall; destruct Hall as [Hp _]; exact Hp.
Qed.

(** X22.  The price check of the CoinDesk provider, which has no test for [NaN],
    accepts exactly the series that the check of the Jupiter and CoinLore
    providers accepts.  Every series they accept has log returns,
    one fewer than its points; [validateInput] accepts it for the simple
    method exactly when none of its prices is [+Infinity], which the
    providers let through. *)
Theorem providers_checks (data : list PriceData) :
  JupiterProvider.validatePriceData data = CoinDeskProvider.validatePriceData data
  /\
  CoinLoreProvider.validatePriceData data = CoinDeskProvider.validatePriceData data
  /\
  (CoinDeskProvider.validatePriceData data = true ->
   (exists returns,
      calculateLogReturns (map price data) = Ok returns /\
      len returns = len data - 1) /\
   (validateInput data simple = Ok tt
    <-> Forall (fun d => price d <> PInf) data)).
Proof.
  split; [| split].
  - unfold JupiterProvider.validatePriceData, CoinDeskProvider.validatePriceData.
    f_equal; apply forallb_pointwise; intros d.
    rewrite NaN_not_positive; reflexivity.
  - unfold CoinLoreProvider.validatePriceData, CoinDeskProvider.validatePriceData.
    f_equal; apply forallb_pointwise; intros d.
    rewrite NaN_not_positive; reflexivity.
  - intros H; destruct (accepted_positive data H) as [Hlen Hpos].
    split.
    + destruct (calculateLogReturns_ok (map price data)) as [returns [Hret [Hrl _]]].
      * rewrite len_map; lia.
      * clear -Hpos; induction Hpos; simpl; constructor; assumption.
      * exists returns; split; [exact Hret | rewrite Hrl, len_map; reflexivity].
    + split.
      * unfold validateInput.
        destruct (Z.eqb_spec (len data) 0); [discriminate |].
        destruct (Z.ltb_spec (len data) 2); [discriminate |].
        cbv iota.
        destruct (Z.ltb_spec (len data) 2); [lia |].
        destruct (filter _ data) as [| d0 l0] eqn:E;
          [intros _ | unfold len; simpl; intros Habs; discriminate Habs].
        apply filter_invalid_nil_iff in E.
        clear -E; induction E as [| d l Hd _ IH]; constructor; [| exact IH].
        intros Hinf; rewrite Hinf in Hd; discriminate.
      * intros Hfin; apply validateInput_ok; [lia |].
        clear -Hpos Hfin; induction Hpos as [| d l Hd _ IH]; [constructor |].
        inversion Hfin; subst; constructor; [| apply IH; assumption].
        destruct (positive_finite_or_infinite (price d) Hd); [assumption | contradiction].
Qed.

Lemma providers_checks_witness :
  (exists returns,
     calculateLogReturns
       (map price [ {| timestamp := 5; price := Fin 100 |};
                    {| timestamp := 6; price := PInf |} ]) = Ok returns /\
     len returns
     = len [ {| timestamp := 5; price := Fin 100 |};
             {| timestamp := 6; price := PInf |} ] - 1) /\
  (validateInput [ {| timestamp := 5; price := Fin 100 |};
                   {| timestamp := 6; price := PInf |} ] simple = Ok tt
   <-> Forall (fun d => price d <> PInf)
         [ {| timestamp := 5; price := Fin 100 |};
           {| timestamp := 6; price := PInf |} ]).
Proof.
  apply (proj2 (proj2 (providers_checks [ {| timestamp := 5; price := Fin 100 |};
                                   {| timestamp := 6; price := PInf |} ]))).
  unfold CoinDeskProvider.validatePriceData; simpl.
  rewrite (Rleb_false 100 0) by lra; reflexivity.
Defined.

(** ** The synthetic histories *)

Section DownLoopInvariant.

Context {St : Type}.
Variable P : Z -> St -> Prop.
Variable body : Z -> St -> St.

Lemma for_down_from_inv :
  forall (fuel : nat) (i : Z) (s : St),
    P i s ->
    (forall j t, i - Z.of_nat fuel < j <= i -> P j t -> P (j - 1) (body j t)) ->
    P (i - Z.of_nat fuel) (for_down_from fuel i body s).
Proof.
  induction fuel as [| fuel IH]; intros i s Hs Hstep.
  - simpl; rewrite Z.sub_0_r; exact Hs.
  - cbn [for_down_from].
    replace (i - Z.of_nat (S fuel)) with (i - 1 - Z.of_nat fuel) by lia.
    apply IH.
    + apply Hstep; [lia | exact Hs].
    + intros j t Hj; apply Hstep; lia.
Qed.

Lemma for_down_inv (hi : Z) (s : St) :
  -1 <= hi ->
  P hi s ->
  (forall j t, 0 <= j <= hi -> P j t -> P (j - 1) (body j t)) ->
  P (-1) (for_down hi body s).
Proof.
  intros Hhi Hs Hstep; unfold for_down.
  replace (-1) with (hi - Z.of_nat (Z.to_nat (hi + 1))) at 1 by lia.
  apply for_down_from_inv; [exact Hs |].
  intros j t Hj; apply Hstep; lia.
Qed.

End DownLoopInvariant.

Lemma map_seq_snoc {A : Type} (f : nat -> A) (n : nat) :
  map f (seq 0 (S n)) = map f (seq 0 n) ++ [f n].
Proof. rewrite seq_S, map_app; reflexivity. Qed.

Lemma history_snoc (days now : Z) (floor : R) (out : list PriceData) (j : Z) (x : R) :
  len out = days - 1 - j ->
  Forall (fun d => exists x, price d = Fin x /\ (floor <= x)%R) out ->
  map timestamp out
  = map (fun k => now - (days - 1 - Z.of_nat k) * 86400000) (seq 0 (length out)) ->
  (floor <= x)%R ->
  let out' := out ++ [{| timestamp := now - j * (24 * 60 * 60 * 1000);
                         price := Fin x |}] in
  len out' = days - 1 - (j - 1) /\
  Forall (fun d => exists x, price d = Fin x /\ (floor <= x)%R) out' /\
  map timestamp out'
  = map (fun k => now - (days - 1 - Z.of_nat k) * 86400000) (seq 0 (length out')).
Proof.
  intros Hlen Hall Hts Hx out'; unfold out'.
  split; [autorewrite with len; lia |].
  split.
  - apply Forall_app; split; [exact Hall |].
    constructor; [exists x; split; [reflexivity | exact Hx] | constructor].
  - rewrite length_app, Nat.add_1_r, map_seq_snoc, map_app, Hts.
    f_equal; cbn [map timestamp]; f_equal.
    unfold len in Hlen; lia.
Qed.

Lemma coindesk_history (cp : R) (period : TimePeriod) (now : Z) (random : nat -> num) :
  (forall k, exists u, random k = Fin u) ->
  history_of (CoinDeskProvider.getDaysFromPeriod period) now (1 / 1000000)
    (CoinDeskProvider.generateSyntheticHistory (Fin cp) period now random).
Proof.
  intros Hrandom; unfold CoinDeskProvider.generateSyntheticHistory.
  set (days := CoinDeskProvider.getDaysFromPeriod period).
  destruct (Hrandom 0%nat) as [u0 ->].
  match goal with
  | |- context [for_down ?hi ?body ?init] =>
      pose proof (for_down_inv
                    (fun j (st : num * list PriceData * nat) =>
                       let '(p, out, _) := st in
                       (exists x, p = Fin x) /\
                       len out = days - 1 - j /\
                       Forall (fun d => exists x, price d = Fin x
                                                  /\ (1 / 1000000 <= x)%R) out /\
                       map timestamp out
                       = map (fun k => now - (days - 1 - Z.of_nat k) * 86400000)
                             (seq 0 (length out)))
                    body hi init) as Hinv;
      destruct (for_down hi body init) as [[p out] draws]
  end.
  destruct Hinv as [_ [Hlen [Hall Hts]]].
  - unfold days; destruct period; simpl; lia.
  - split; [exists cp; reflexivity |].
    split; [unfold len; simpl; lia |].
    split; [constructor | reflexivity].
  - intros j [[q out'] draws'] Hj [[x ->] [Hlen [Hall Hts]]].
    destruct (Hrandom draws') as [u ->].
    cbv zeta; cbn [sub neg add mul]; rewrite Math_max_Fin.
    split; [eexists; reflexivity |].
    apply history_snoc; try assumption.
    unfold Rleb; match goal with
                 | |- context [Rle_dec ?a ?b] => destruct (Rle_dec a b)
                 end; lra.
  - split; [lia |]. split; assumption.
Qed.

Lemma coinlore_history (cp : R) (period : TimePeriod) (now : Z) (random : nat -> num) :
  (forall k, exists u, random k = Fin u) ->
  history_of (CoinLoreProvider.getDaysFromPeriod period) now (cp * (1 / 2))
    (CoinLoreProvider.generateHistoricalData (Fin cp) period now random).
Proof.
  intros Hrandom; unfold CoinLoreProvider.generateHistoricalData.
  set (days := CoinLoreProvider.getDaysFromPeriod period).
  destruct (Hrandom 0%nat) as [u0 ->].
  match goal with
  | |- context [for_down ?hi ?body ?init] =>
      pose proof (for_down_inv
                    (fun j (st : num * list PriceData * nat) =>
                       let '(p, out, _) := st in
                       (exists x, p = Fin x) /\
                       len out = days - 1 - j /\
                       Forall (fun d => exists x, price d = Fin x
                                                  /\ (cp * (1 / 2) <= x)%R) out /\
                       map timestamp out
                       = map (fun k => now - (days - 1 - Z.of_nat k) * 86400000)
                             (seq 0 (length out)))
                    body hi init) as Hinv;
      destruct (for_down hi body init) as [[p out] draws]
  end.
  destruct Hinv as [_ [Hlen [Hall Hts]]].
  - unfold days; destruct period; simpl; lia.
  - split; [exists cp; reflexivity |].
    split; [unfold len; simpl; lia |].
    split; [constructor | reflexivity].
  - intros j [[q out'] draws'] Hj [[x ->] [Hlen [Hall Hts]]].
    destruct (Hrandom draws') as [u ->].
    cbv zeta; cbn [sub neg add mul]; rewrite Math_max_Fin.
    split; [eexists; reflexivity |].
    apply history_snoc; try assumption.
    unfold Rleb; match goal with
                 | |- context [Rle_dec ?a ?b] => destruct (Rle_dec a b)
                 end; lra.
  - split; [lia |]. split; assumption.
Qed.

Lemma history_valid (days now : Z) (floor : R) (out : list PriceData) :
  (0 < floor)%R ->
  history_of days now floor out ->
  Forall (fun d => valid_price (price d) = true) out.
Proof.
  intros Hf [_ [Hall _]].
  induction Hall as [| d l [x [Hd Hx]] _ IH]; constructor; [| exact IH].
  apply valid_price_Fin; exists x; split; [exact Hd | lra].
Qed.

Lemma history_timestamps (days now : Z) (floor : R) (out : list PriceData) :
  history_of days now floor out ->
  forall d, In d out -> now - (days - 1) * 86400000 <= timestamp d.
Proof.
  intros [Hlen [_ Hts]] d Hd.
  apply (in_map timestamp) in Hd; rewrite Hts in Hd.
  apply in_map_iff in Hd; destruct Hd as [k [<- Hk]].
  apply in_seq in Hk; lia.
Qed.

Lemma history_accepted (days now : Z) (floor : R) (out : list PriceData) :
  (0 < floor)%R ->
  history_of days now floor out ->
  (days <= 1 -> CoinDeskProvider.validatePriceData out = false) /\
  (1 < days -> (days - 1) * 86400000 < now ->
   CoinDeskProvider.validatePriceData out = true).
Proof.
  intros Hf Hist; pose proof Hist as [Hlen [Hall _]].
  unfold CoinDeskProvider.validatePriceData; split.
  - intros Hd; destruct (Z.gtb_spec (len out) 1); [lia | reflexivity].
  - intros Hd Hnow; destruct (Z.gtb_spec (len out) 1); [| lia].
    cbn [andb]; apply forallb_forall; intros d Hin.
    rewrite Forall_forall in Hall; destruct (Hall d Hin) as [x [-> Hx]].
    pose proof (history_timestamps days now floor out Hist d Hin).
    cbn [lt le]; rewrite (Rleb_false x 0) by lra; cbn [negb andb].
    destruct (Z.gtb_spec (timestamp d) 0); [reflexivity | lia].
Qed.

(** X23.  The synthetic history of the CoinDesk provider, for a current
    price between 0 and 1e100, a time within the range of a [Date] and
    random draws in [[0, 1)], as [Math.random] gives them, has one point a
    day, [days] of them, the last stamped [now], and every price is a
    finite number at or above 0.000001.  For the period '1d' it has a
    single point and the provider's own check refuses it; for '30d' and
    '365d' the check accepts it as soon as the first time stamp is
    positive. *)
Theorem coindesk_synthetic_history
    (cp : R) (period : TimePeriod) (now : Z) (random : nat -> num) :
  (0 < cp <= 1e100)%R ->
  - 8640000000000000 <= now <= 8640000000000000 ->
  (forall k, exists u, random k = Fin u /\ (0 <= u < 1)%R) ->
  history_of (CoinDeskProvider.getDaysFromPeriod period) now (1 / 1000000)
    (CoinDeskProvider.generateSyntheticHistory (Fin cp) period now random)
  /\
  (period = Period1d ->
   CoinDeskProvider.validatePriceData
     (CoinDeskProvider.generateSyntheticHistory (Fin cp) period now random) = false)
  /\
  (period <> Period1d ->
   (CoinDeskProvider.getDaysFromPeriod period - 1) * 86400000 < now ->
   CoinDeskProvider.validatePriceData
     (CoinDeskProvider.generateSyntheticHistory (Fin cp) period now random) = true).
Proof.
  intros _ _ Hdraws.
  assert (Hrandom : forall k, exists u, random k = Fin u)
    by (intros k; destruct (Hdraws k) as [u [Hu _]]; exists u; exact Hu).
  pose proof (coindesk_history cp period now random Hrandom) as Hist.
  destruct (history_accepted _ _ (1 / 1000000) _ ltac:(lra) Hist) as [Hno Hyes].
  split; [exact Hist |].
  split.
  - intros ->; apply Hno; simpl; lia.
  - intros Hp; apply Hyes; destruct period; simpl; try lia; contradiction.
Qed.

Lemma coindesk_synthetic_history_witness :
  history_of (CoinDeskProvider.getDaysFromPeriod Period30d) 1800000000000 (1 / 1000000)
    (CoinDeskProvider.generateSyntheticHistory (Fin 60000) Period30d 1800000000000
       (fun _ => Fin (1 / 4)))
  /\
  CoinDeskProvider.validatePriceData
    (CoinDeskProvider.generateSyntheticHistory (Fin 60000) Period30d 1800000000000
       (fun _ => Fin (1 / 4))) = true.
Proof.
  destruct (coindesk_synthetic_history 60000 Period30d 1800000000000
              (fun _ => Fin (1 / 4)) ltac:(lra) ltac:(lia)
              ltac:(intros k; exists (1 / 4)%R; split; [reflexivity | lra]))
    as [A [_ B]].
  split; [exact A |].
  apply B; [discriminate | simpl; lia].
Defined.

(** X24.  The synthetic history of the CoinLore provider, for a current
    price between 1e-100 and 1e100, a time within the range of a [Date]
    and random draws in [[0, 1)], has [days] points, one a day up to
    [now], and every price is a finite number, none below half the current
    price; the provider's check refuses it for the period '1d' and accepts
    it for '30d' and '365d' as soon as the first time stamp is positive. *)
Theorem coinlore_synthetic_history
    (cp : R) (period : TimePeriod) (now : Z) (random : nat -> num) :
  (1e-100 <= cp <= 1e100)%R ->
  - 8640000000000000 <= now <= 8640000000000000 ->
  (forall k, exists u, random k = Fin u /\ (0 <= u < 1)%R) ->
  history_of (CoinLoreProvider.getDaysFromPeriod period) now (cp * (1 / 2))
    (CoinLoreProvider.generateHistoricalData (Fin cp) period now random)
  /\
  (period = Period1d ->
   CoinLoreProvider.validatePriceData
     (CoinLoreProvider.generateHistoricalData (Fin cp) period now random) = false)
  /\
  (period <> Period1d ->
   (CoinLoreProvider.getDaysFromPeriod period - 1) * 86400000 < now ->
   CoinLoreProvider.validatePriceData
     (CoinLoreProvider.generateHistoricalData (Fin cp) period now random) = true).
Proof.
  intros Hcp _ Hdraws.
  assert (Hrandom : forall k, exists u, random k = Fin u)
    by (intros k; destruct (Hdraws k) as [u [Hu _]]; exists u; exact Hu).
  pose proof (coinlore_history cp period now random Hrandom) as Hist.
  destruct (history_accepted _ _ (cp * (1 / 2)) _ ltac:(lra) Hist) as [Hno Hyes].
  assert (Hsame : forall data, CoinLoreProvider.validatePriceData data
                               = CoinDeskProvider.validatePriceData data).
  { intros data.
    unfold CoinLoreProvider.validatePriceData, CoinDeskProvider.validatePriceData.
    f_equal; apply forallb_pointwise; intros d.
    rewrite NaN_not_positive; reflexivity. }
  rewrite Hsame.
  split; [exact Hist |].
  split.
  - intros ->; apply Hno; simpl; lia.
  - intros Hp; apply Hyes; destruct period; simpl; try lia; contradiction.
Qed.

Lemma coinlore_synthetic_history_witness :
  history_of (CoinLoreProvider.getDaysFromPeriod Period365d) 1800000000000
    (150 * (1 / 2))
    (CoinLoreProvider.generateHistoricalData (Fin 150) Period365d 1800000000000
       (fun _ => Fin (3 / 4)))
  /\
  CoinLoreProvider.validatePriceData
    (CoinLoreProvider.generateHistoricalData (Fin 150) Period365d 1800000000000
       (fun _ => Fin (3 / 4))) = true.
Proof.
  destruct (coinlore_synthetic_history 150 Period365d 1800000000000
              (fun _ => Fin (3 / 4)) ltac:(lra) ltac:(lia)
              ltac:(intros k; exists (3 / 4)%R; split; [reflexivity | lra]))
    as [A [_ B]].
  split; [exact A |].
  apply B; [discriminate | simpl; lia].
Defined.

(** X25.  A 30-day synthetic history of the CoinDesk provider (current price
    between 0 and 1e100, time within the range of a [Date], random draws in
    [[0, 1)]) has 30 points, hence 29 returns: the simple method with its
    default window of 30 throws 'Insufficient data for window size 30' on
    it, and returns with the window of 20 that the examples pass. *)
Theorem simple_method_on_30d_history
    (cp : R) (now t : Z) (random : nat -> num) :
  (0 < cp <= 1e100)%R ->
  - 8640000000000000 <= now <= 8640000000000000 ->
  (forall k, exists u, random k = Fin u /\ (0 <= u < 1)%R) ->
  calculateDVOL t
    (CoinDeskProvider.generateSyntheticHistory (Fin cp) Period30d now random)
    simple no_options
  = Throw (InsufficientDataForWindow 30)
  /\
  exists r,
    calculateDVOL t
      (CoinDeskProvider.generateSyntheticHistory (Fin cp) Period30d now random)
      simple
      {| windowSize := Some 20; ewmaLambda := None; garchParams := None;
         annualizationFactor := None |}
    = Ok r.
Proof.
  intros _ _ Hdraws.
  assert (Hrandom : forall k, exists u, random k = Fin u)
    by (intros k; destruct (Hdraws k) as [u [Hu _]]; exists u; exact Hu).
  pose proof (coindesk_history cp Period30d now random Hrandom) as Hist.
  pose proof (history_valid _ _ (1 / 1000000) _ ltac:(lra) Hist) as Hvalid.
  destruct Hist as [Hlen _]; cbn [CoinDeskProvider.getDaysFromPeriod] in Hlen.
  unfold calculateDVOL.
  rewrite validateInput_ok by (try assumption; lia).
  cbn [bind windowSize annualizationFactor no_options].
  split.
  - rewrite calculateSimpleDVOL_too_short;
      [reflexivity | assumption | lia | unfold DEFAULT_WINDOW_SIZE; lia].
  - destruct (calculateSimpleDVOL_spec
                (CoinDeskProvider.generateSyntheticHistory (Fin cp) Period30d now random)
                20 ANNUALIZATION_FACTOR Hvalid)
      as [returns [vols [_ [_ [_ [_ ->]]]]]]; [lia | lia |].
    cbn [bind]; eexists; reflexivity.
Qed.

Lemma simple_method_on_30d_history_witness :
  calculateDVOL 0
    (CoinDeskProvider.generateSyntheticHistory (Fin 60000) Period30d 1800000000000
       (fun _ => Fin (1 / 4)))
    simple no_options
  = Throw (InsufficientDataForWindow 30).
Proof.
  apply (simple_method_on_30d_history 60000 1800000000000 0 (fun _ => Fin (1 / 4))).
  - lra.
  - lia.
  - intros k; exists (1 / 4)%R; split; [reflexivity | lra].
Defined.

(** ** A [lambda] that is not a number *)

(** X26.  The range check of the EWMA method compares [lambda] with 0 and with
    1, and [NaN] fails both comparisons: on a valid series of five points
    or more a [lambda] that is [NaN] is not refused, and the method returns
    a [dvol] that is [NaN]. *)
Theorem calculateDVOL_ewma_NaN_lambda
    (now : Z) (priceData : list PriceData) (options : DVOLOptions) :
  ewmaLambda options = Some NaN ->
  Forall (fun d => valid_price (price d) = true) priceData ->
  5 <= len priceData ->
  exists r, calculateDVOL now priceData ewma options = Ok r /\ dvol r = NaN.
Proof.
  intros Hlam Hvalid Hlen; unfold calculateDVOL.
  rewrite validateInput_ok by (simpl; assumption); cbn [bind].
  rewrite Hlam; unfold calculateEWMADVOL, ge; cbn [le orb].
  destruct (logReturns_of_valid priceData Hvalid ltac:(lia)) as [returns [-> Hrl]].
  cbn [bind].
  destruct (Z.ltb_spec (len returns) 2); [lia |].
  destruct (ewmaVariances_spec returns NaN) as [v [vs [-> [Hvl [Hv [_ Hrec]]]]]];
    [lia |].
  cbn [bind].
  destruct (calculateStability_total (slice vs (- Z.min 10 (len vs)) (len vs)))
    as [conf ->].
  cbn [bind]; eexists; split; [reflexivity |].
  cbn [dvol]; rewrite Hv, Hrec by lia; reflexivity.
Qed.

Lemma calculateDVOL_ewma_NaN_lambda_witness :
  exists r,
    calculateDVOL 0 (constant_series (Fin 100) 5) ewma
      {| windowSize := None; ewmaLambda := Some NaN; garchParams := None;
         annualizationFactor := None |} = Ok r
    /\ dvol r = NaN.
Proof.
  apply calculateDVOL_ewma_NaN_lambda.
  - reflexivity.
  - apply (constant_valid 100); [lra | apply constant_series_const].
  - autorewrite with len; lia.
Defined.
